(** * Verification of the live preview hub of the AI Video Editor API

    The development embeds [src/main.py] shallowly:

    - [Json]: the Python values that travel through the preview channel;
    - [Datetime]: [datetime.now(timezone.utc).isoformat()];
    - [Hub]: the class [PreviewHub] ([connect], [disconnect], [broadcast]);
    - [Runtime]: the hub together with the handshakes of the connections,
      and the states the program reaches;
    - [Preview]: the handler [preview_ws] and the envelope it broadcasts;
    - [Auth]: the handler [login] with the model [User] of [src/schemas.py];
    - [HubRuns]: what is left of a hub after broadcasts and handlers;
    - [Api]: the other request handlers (projects, uploads, jobs, the
      health check) with their models of [src/schemas.py].

    Everything the environment decides (whether [accept] or [send_json]
    raises, what other tasks do while a send is awaited, the clock, the
    random UUID) is an explicit argument of the functions below. *)

From Stdlib Require Import ZArith Lia Ascii String.
From stdpp Require Import gmap strings list fin_maps.

Local Open Scope string_scope.
Local Open Scope list_scope.
Local Open Scope nat_scope.

(* ===================================================================== *)
(** ** JSON values *)
(* ===================================================================== *)

Module Json.

(** What [receive_json] hands to the handler and what [send_json] accepts:
    [None], booleans, integers, floats (kept as their IEEE-754 bit
    pattern), strings, lists and dicts.  A dict keeps its insertion
    order, so it is an association list. *)
#[warnings="-register-all"]
Inductive json : Type :=
| JNull
| JBool (b : bool)
| JInt (n : Z)
| JFloat (bits : Z)
| JStr (s : string)
| JArr (items : list json)
| JObj (members : list (string * json)).

(** [d.keys()] of a dict, in insertion order. *)
Definition keys (v : json) : list string :=
  match v with
  | JObj members => members.*1
  | _ => []
  end.

(** [d.get(k)]: the first (and, in a Python dict, only) entry under [k]. *)
Fixpoint assoc (k : string) (members : list (string * json)) : option json :=
  match members with
  | [] => None
  | (k', v) :: rest => if decide (k = k') then Some v else assoc k rest
  end.

Definition get (k : string) (v : json) : option json :=
  match v with
  | JObj members => assoc k members
  | _ => None
  end.

End Json.

(* ===================================================================== *)
(** ** Timestamps *)
(* ===================================================================== *)

Module Datetime.

Local Open Scope N_scope.

(** An aware [datetime] whose [tzinfo] is [timezone.utc], as
    [datetime.now(timezone.utc)] returns it. *)
Record datetime : Type := mkDatetime {
  year : N;
  month : N;
  day : N;
  hour : N;
  minute : N;
  second : N;
  microsecond : N
}.

Definition is_leap (y : N) : bool :=
  (y mod 4 =? 0) && (negb (y mod 100 =? 0) || (y mod 400 =? 0)).

Definition days_in_month (y m : N) : N :=
  match m with
  | 1 | 3 | 5 | 7 | 8 | 10 | 12 => 31
  | 4 | 6 | 9 | 11 => 30
  | 2 => if is_leap y then 29 else 28
  | _ => 0
  end.

(** The ranges the [datetime] constructor enforces
    ([MINYEAR = 1], [MAXYEAR = 9999]). *)
Definition valid (d : datetime) : bool :=
  (1 <=? year d) && (year d <=? 9999) &&
  (1 <=? month d) && (month d <=? 12) &&
  (1 <=? day d) && (day d <=? days_in_month (year d) (month d)) &&
  (hour d <? 24) && (minute d <? 60) && (second d <? 60) &&
  (microsecond d <? 1000000).

Definition digit_char (d : N) : ascii := ascii_of_N (48 + d).

(** ["%0<width>d" % n] for [n < 10 ^ width]: the [width] low decimal
    digits of [n], most significant first. *)
Fixpoint zero_pad (width : nat) (n : N) : string :=
  match width with
  | O => ""
  | S w => String (digit_char ((n / 10 ^ N.of_nat w) mod 10)) (zero_pad w n)
  end.

(** [datetime.isoformat()] with the default separator ['T'] and
    [timespec='auto']: the fraction is printed only when [microsecond]
    is not zero; the UTC offset is always [+00:00]. *)
Definition isoformat (d : datetime) : string :=
  zero_pad 4 (year d) +:+ "-" +:+ zero_pad 2 (month d) +:+ "-" +:+
  zero_pad 2 (day d) +:+ "T" +:+
  zero_pad 2 (hour d) +:+ ":" +:+ zero_pad 2 (minute d) +:+ ":" +:+
  zero_pad 2 (second d) +:+
  (if microsecond d =? 0 then "+00:00"
   else "." +:+ zero_pad 6 (microsecond d) +:+ "+00:00").

(** A reader of the extended ISO-8601 format with a UTC offset,
    [YYYY-MM-DDTHH:MM:SS[.ffffff]+00:00], against which the output of
    [isoformat] is checked. *)
Definition digit_val (c : ascii) : option N :=
  let n := N_of_ascii c in
  if (48 <=? n) && (n <=? 57) then Some (n - 48) else None.

Fixpoint read_digits (k : nat) (acc : N) (s : string) : option (N * string) :=
  match k with
  | O => Some (acc, s)
  | S k' =>
      match s with
      | String c s' => v ← digit_val c; read_digits k' (10 * acc + v) s'
      | EmptyString => None
      end
  end.

Definition expect (c : ascii) (s : string) : option string :=
  match s with
  | String c' s' => if decide (c = c') then Some s' else None
  | EmptyString => None
  end.

Definition read_fraction (s : string) : option (N * string) :=
  match s with
  | String "." s' => read_digits 6 0 s'
  | _ => Some (0, s)
  end.

Definition parse_iso8601_utc (s : string) : option datetime :=
  '(y, s) ← read_digits 4 0 s;
  s ← expect "-" s;
  '(mo, s) ← read_digits 2 0 s;
  s ← expect "-" s;
  '(d, s) ← read_digits 2 0 s;
  s ← expect "T" s;
  '(h, s) ← read_digits 2 0 s;
  s ← expect ":" s;
  '(mi, s) ← read_digits 2 0 s;
  s ← expect ":" s;
  '(se, s) ← read_digits 2 0 s;
  '(us, s) ← read_fraction s;
  if decide (s = "+00:00") then
    let r := mkDatetime y mo d h mi se us in
    if valid r then Some r else None
  else None.

End Datetime.

(* ===================================================================== *)
(** ** The preview hub *)
(* ===================================================================== *)

Module Hub.

(** The two [except] clauses of [broadcast] distinguish
    [WebSocketDisconnect] from every other [Exception]. *)
Inductive send_result : Type :=
| SendOk
| SendDisconnect
| SendError.

Definition raised (r : send_result) : bool :=
  match r with
  | SendOk => false
  | SendDisconnect | SendError => true
  end.

Section hub.
(** A [WebSocket] is compared by object identity ([in] and
    [list.remove] on instances that define no [__eq__]); an event is
    whatever the caller passes to [broadcast]. *)
Context {WebSocket : Type} `{!EqDecision WebSocket}.
Context {Event : Type}.

(** [self.connections: Dict[str, List[WebSocket]]] *)
Record PreviewHub : Type := mkHub {
  connections : gmap string (list WebSocket)
}.

(** [PreviewHub.__init__] *)
Definition init : PreviewHub := mkHub ∅.

(** [self.connections.get(project_id, [])] *)
Definition subscribers (self : PreviewHub) (project_id : string)
  : list WebSocket :=
  default [] (connections self !! project_id).

(** [list.remove(x)]: drops the first item equal to [x]; Python raises
    [ValueError] when there is none, which is [None] here. *)
Fixpoint list_remove (x : WebSocket) (l : list WebSocket)
  : option (list WebSocket) :=
  match l with
  | [] => None
  | y :: l' =>
      if decide (x = y) then Some l'
      else cons y <$> list_remove x l'
  end.

(** [connect]: [await websocket.accept()] comes first; when it raises
    ([accepted = false]) the exception leaves [connect] and nothing is
    registered ([None]).  Otherwise
    [self.connections.setdefault(project_id, []).append(websocket)]. *)
Definition connect (project_id : string) (websocket : WebSocket)
    (accepted : bool) (self : PreviewHub) : option PreviewHub :=
  if accepted then
    Some (mkHub (<[project_id := subscribers self project_id ++ [websocket]]>
                   (connections self)))
  else None.

(** [disconnect]: guarded by
    [project_id in self.connections and websocket in self.connections[project_id]],
    so [remove] never raises. *)
Definition disconnect (project_id : string) (websocket : WebSocket)
    (self : PreviewHub) : PreviewHub :=
  match connections self !! project_id with
  | Some l =>
      if decide (websocket ∈ l) then
        match list_remove websocket l with
        | Some l' => mkHub (<[project_id := l']> (connections self))
        | None => self
        end
      else self
  | None => self
  end.

(** What another task may do to the hub while this one is suspended in
    [await ws.send_json(event)]. *)
Inductive op : Type :=
| OpConnect (project_id : string) (websocket : WebSocket)
| OpDisconnect (project_id : string) (websocket : WebSocket).

Definition run_op (self : PreviewHub) (o : op) : PreviewHub :=
  match o with
  | OpConnect p ws => default self (connect p ws true self)
  | OpDisconnect p ws => disconnect p ws self
  end.

(** The environment of one [broadcast] call: the result of the [i]-th
    [send_json], and the hub operations of other tasks that run while
    that send is awaited. *)
Record env : Type := mkEnv {
  outcome : nat → send_result;
  others : nat → list op
}.

(** No other task touches the hub during the call. *)
Definition quiet (e : env) : Prop := ∀ i, others e i = [].

(** Every send returns normally. *)
Definition reliable (e : env) : Prop := ∀ i, outcome e i = SendOk.

Definition atomic (out : nat → send_result) : env := mkEnv out (λ _, []).

(** One [ws.send_json(event)] performed by [broadcast]. *)
Record attempt : Type := Attempt {
  target : WebSocket;
  sent : Event;
  result : send_result
}.

(** The body of the [for] loop, over what is left of the snapshot. *)
Fixpoint broadcast_from (project_id : string) (event : Event) (e : env)
    (i : nat) (snapshot : list WebSocket) (self : PreviewHub)
  : PreviewHub * list attempt :=
  match snapshot with
  | [] => (self, [])
  | ws :: rest =>
      let self1 := foldl run_op self (others e i) in
      let r := outcome e i in
      let self2 :=
        match r with
        | SendOk => self1
        | SendDisconnect => disconnect project_id ws self1
        | SendError => disconnect project_id ws self1
        end in
      let '(self3, log) := broadcast_from project_id event e (S i) rest self2 in
      (self3, Attempt ws event r :: log)
  end.

(** [broadcast]: [for ws in list(self.connections.get(project_id, []))]. *)
Definition broadcast (project_id : string) (event : Event) (e : env)
    (self : PreviewHub) : PreviewHub * list attempt :=
  broadcast_from project_id event e 0 (subscribers self project_id) self.

(** [ws] was handed [event] and the send returned normally. *)
Definition delivered (ws : WebSocket) (event : Event) (log : list attempt)
  : Prop :=
  Attempt ws event SendOk ∈ log.

(** [send_json] was called on [ws], whatever came of it. *)
Definition attempted (ws : WebSocket) (log : list attempt) : Prop :=
  ws ∈ target <$> log.

(** *** Properties of hub states *)

(** How many entries of a subscriber list are the object [ws]. *)
Definition occurrences (ws : WebSocket) (l : list WebSocket) : nat :=
  length (filter (λ x, x = ws) l).

(** No connection is listed under two projects. *)
Definition one_project (self : PreviewHub) : Prop :=
  ∀ p1 p2 ws,
    ws ∈ subscribers self p1 → ws ∈ subscribers self p2 → p1 = p2.

(** *** The specification's claims about the hub, as it states them *)

(** Spec, isolation: nothing broadcast under [p1] is sent to a
    connection registered under [p2]. *)
Definition isolated (p1 p2 : string) (event : Event) (e : env)
    (self : PreviewHub) : Prop :=
  ∀ ws, ws ∈ subscribers self p2 →
        ¬ attempted ws (snd (broadcast p1 event e self)).

(** Spec, idempotent disconnect: the second of two consecutive calls
    changes nothing. *)
Definition second_disconnect_noop (p : string) (ws : WebSocket)
    (self : PreviewHub) : Prop :=
  disconnect p ws (disconnect p ws self) = disconnect p ws self.

End hub.

Arguments PreviewHub : clear implicits.
Arguments op : clear implicits.
Arguments env : clear implicits.
Arguments attempt : clear implicits.

End Hub.

(* ===================================================================== *)
(** ** The hub together with the connections' handshakes *)
(* ===================================================================== *)

Module Runtime.
Import Hub.

Section runtime.
Context {WebSocket : Type} `{!EqDecision WebSocket}.
Context {Event : Type}.

(** The hub and the [WebSocket] objects on which [accept()] has
    returned. *)
Record state : Type := mkState {
  the_hub : PreviewHub WebSocket;
  accepted : list WebSocket
}.

(** [PreviewHub()] at import time, before any connection. *)
Definition start : state := mkState init [].

(** [await websocket.accept()] of Starlette's [WebSocket]: it completes
    the handshake of a connection that is still connecting; on an object
    it has accepted before (or closed since) the call raises
    [RuntimeError], and it raises as well when the handshake cannot be
    completed ([handshake = false]).  [None] is the exception. *)
Definition accept (websocket : WebSocket) (handshake : bool)
    (acc : list WebSocket) : option (list WebSocket) :=
  if decide (websocket ∈ acc) then None
  else if handshake then Some (websocket :: acc)
  else None.

(** [hub.connect(project_id, websocket)] with the outcome of [accept]
    decided by the connection's own state. *)
Definition connect_ws (project_id : string) (websocket : WebSocket)
    (handshake : bool) (st : state) : option state :=
  acc ← accept websocket handshake (accepted st);
  hub ← connect project_id websocket true (the_hub st);
  Some (mkState hub acc).

(** The connections accepted once other tasks have run [ops]; an
    [OpConnect] stands for a [connect] that registered its connection,
    so its [accept] returned: [None] when one of them is for a
    connection accepted before, which cannot happen. *)
Fixpoint accept_all (acc : list WebSocket) (ops : list (op WebSocket))
  : option (list WebSocket) :=
  match ops with
  | [] => Some acc
  | OpConnect _ ws :: rest => acc' ← accept ws true acc; accept_all acc' rest
  | OpDisconnect _ _ :: rest => accept_all acc rest
  end.

(** The same over the sends [i], ..., [i + n - 1] of a broadcast. *)
Fixpoint accept_env (e : env WebSocket) (i n : nat) (acc : list WebSocket)
  : option (list WebSocket) :=
  match n with
  | 0 => Some acc
  | S n' => acc' ← accept_all acc (others e i); accept_env e (S i) n' acc'
  end.

(** What the program does to the hub: a [connect], a [disconnect], or a
    [broadcast] during which other tasks run operations of their own. *)
Inductive step : state → state → Prop :=
| step_connect p ws handshake st st' :
    connect_ws p ws handshake st = Some st' →
    step st st'
| step_disconnect p ws st :
    step st (mkState (disconnect p ws (the_hub st)) (accepted st))
| step_broadcast p (event : Event) e st acc' :
    accept_env e 0 (length (subscribers (the_hub st) p)) (accepted st)
    = Some acc' →
    step st (mkState (fst (broadcast p event e (the_hub st))) acc').

Definition reachable (st : state) : Prop := rtc step start st.

(** Each project lists a connection at most once, no connection is
    listed under two projects, and every listed connection has been
    accepted. *)
Definition sound (st : state) : Prop :=
  (∀ p, NoDup (subscribers (the_hub st) p)) ∧
  one_project (the_hub st) ∧
  ∀ p ws, ws ∈ subscribers (the_hub st) p → ws ∈ accepted st.

End runtime.

Arguments state : clear implicits.

End Runtime.

(* ===================================================================== *)
(** ** The handler of [/ws/preview/{project_id}] *)
(* ===================================================================== *)

Module Preview.
Import Json Datetime Hub.

Section preview.
Context {WebSocket : Type} `{!EqDecision WebSocket}.

(** [{"type": "event", "data": data, "ts": datetime.now(timezone.utc).isoformat()}] *)
Definition envelope (data : json) (now : datetime) : json :=
  JObj [("type", JStr "event"); ("data", data); ("ts", JStr (isoformat now))].

(** One turn of the [while True] loop as the environment decides it:
    what other tasks did to the hub while [receive_json] was awaited,
    the value it returned, the clock reading, and the environment of
    the [broadcast] that follows. *)
Record inbound : Type := mkInbound {
  meanwhile : list (op WebSocket);
  payload : json;
  clock : datetime;
  sends : env WebSocket
}.

(** [data = await websocket.receive_json()] followed by
    [await hub.broadcast(project_id, {...})]. *)
Definition on_message (project_id : string) (m : inbound)
    (hub : PreviewHub WebSocket)
  : PreviewHub WebSocket * list (attempt WebSocket json) :=
  broadcast project_id (envelope (payload m) (clock m)) (sends m) hub.

(** The loop over the messages received before [receive_json] raises. *)
Fixpoint receive_loop (project_id : string) (msgs : list inbound)
    (hub : PreviewHub WebSocket)
  : PreviewHub WebSocket * list (attempt WebSocket json) :=
  match msgs with
  | [] => (hub, [])
  | m :: rest =>
      let '(hub1, log1) :=
        on_message project_id m (foldl run_op hub (meanwhile m)) in
      let '(hub2, log2) := receive_loop project_id rest hub1 in
      (hub2, log1 ++ log2)
  end.

(** How the [try] block of [preview_ws] is left.  [receive_json]
    raises [WebSocketDisconnect] or another [Exception], which one of
    the two [except] clauses catches; or the task is cancelled:
    [asyncio.CancelledError] is a [BaseException], caught neither by the
    clauses of [preview_ws] nor by those of [broadcast], and there is no
    [finally].  The cancellation arrives where the task is suspended:
    while [receive_json] is awaited, or, one more message [m] having
    been received, while the send to target [k] of its broadcast is
    awaited.  [last] is what other tasks did to the hub during the last
    [receive_json]. *)
Inductive ending : Type :=
| ReceiveRaised (last : list (op WebSocket))
| ReceiveCancelled (last : list (op WebSocket))
| SendCancelled (m : inbound) (k : nat).

(** The messages [receive_json] returned over the handler's life. *)
Definition received (msgs : list inbound) (fin : ending) : list inbound :=
  match fin with
  | SendCancelled m _ => msgs ++ [m]
  | _ => msgs
  end.

(** A [broadcast] cut short by a cancellation during the send to target
    [k] of the snapshot: the sends before it were completed, other tasks
    ran while send [k] was awaited, and the exception then leaves
    [broadcast].  The log holds the completed sends.  When the snapshot
    has no target [k] the broadcast had completed. *)
Definition broadcast_cancelled (project_id : string) (event : json)
    (e : env WebSocket) (k : nat) (self : PreviewHub WebSocket)
  : PreviewHub WebSocket * list (attempt WebSocket json) :=
  let snapshot := subscribers self project_id in
  let '(self1, log) :=
    broadcast_from project_id event e 0 (take k snapshot) self in
  match snapshot !! k with
  | Some _ => (foldl run_op self1 (others e k), log)
  | None => (self1, log)
  end.

(** [preview_ws]: [hub.connect] is outside the [try], so a failed
    [accept] ends the handler with nothing registered ([None]).
    Otherwise the loop runs over [msgs] and ends as [fin] says: only
    when [receive_json] raised an [Exception] does an [except] clause
    call [hub.disconnect]; a cancelled handler leaves the hub as the
    loop left it. *)
Definition preview_ws (websocket : WebSocket) (project_id : string)
    (accepted : bool) (msgs : list inbound) (fin : ending)
    (hub : PreviewHub WebSocket)
  : option (PreviewHub WebSocket * list (attempt WebSocket json)) :=
  hub1 ← connect project_id websocket accepted hub;
  let '(hub2, log) := receive_loop project_id msgs hub1 in
  match fin with
  | ReceiveRaised last =>
      Some (disconnect project_id websocket (foldl run_op hub2 last), log)
  | ReceiveCancelled last => Some (foldl run_op hub2 last, log)
  | SendCancelled m k =>
      let '(hub3, log3) :=
        broadcast_cancelled project_id (envelope (payload m) (clock m))
          (sends m) k (foldl run_op hub2 (meanwhile m)) in
      Some (hub3, log ++ log3)
  end.

End preview.

Arguments inbound : clear implicits.
Arguments ending : clear implicits.

End Preview.

(* ===================================================================== *)
(** ** The handler of [POST /auth/login] *)
(* ===================================================================== *)

Module Auth.
Import Json.

(** [class LoginRequest(BaseModel)]: [email] and [provider] are plain
    [str], so any string passes; [name] is optional and [provider]
    defaults to ["email"]. *)
Record LoginRequest : Type := mkLoginRequest {
  email : string;
  name : option string;
  provider : string
}.

(** [Literal["email", "google"]] of [schemas.User.provider]. *)
Inductive Provider : Type :=
| ProviderEmail
| ProviderGoogle.

(** [class User(BaseModel)] of [schemas.py]. *)
Record User : Type := mkUser {
  user_email : string;
  user_name : option string;
  avatar_url : option string;
  user_provider : Provider;
  is_active : bool
}.

Definition parse_provider (s : string) : option Provider :=
  if decide (s = "email") then Some ProviderEmail
  else if decide (s = "google") then Some ProviderGoogle
  else None.

Definition provider_name (p : Provider) : string :=
  match p with
  | ProviderEmail => "email"
  | ProviderGoogle => "google"
  end.

Definition opt_str (o : option string) : json :=
  match o with
  | Some s => JStr s
  | None => JNull
  end.

(** [user.model_dump()], in the order the fields are declared. *)
Definition model_dump (u : User) : list (string * json) :=
  [("email", JStr (user_email u)); ("name", opt_str (user_name u));
   ("avatar_url", opt_str (avatar_url u));
   ("provider", JStr (provider_name (user_provider u)));
   ("is_active", JBool (is_active u))].

(** Modelled from the spec: the document store behind [db] and
    [create_document] ([database.py] is not among the sources).  The
    spec gives [create(collection_name, document) -> id] and
    [find(collection_name, filter, limit) -> list of documents] over
    schemaless collections, one per entity kind; a stored document
    carries the identifier the store gave it. *)
Record document : Type := mkDocument {
  doc_id : string;
  doc_fields : list (string * json)
}.

(** Modelled from the spec: the collections of the document store, by
    collection name. *)
Record Database : Type := mkDatabase {
  collections : gmap string (list document)
}.

(** Modelled from the spec: the documents of one collection, oldest
    first; a collection never written to is empty. *)
Definition collection (name : string) (d : Database) : list document :=
  default [] (collections d !! name).

(** Modelled from the spec: the filter [{"email": e}] selects the
    documents whose [email] field is the string [e]. *)
Definition matches_email (e : string) (d : document) : bool :=
  match assoc "email" (doc_fields d) with
  | Some (JStr e') => bool_decide (e = e')
  | _ => false
  end.

(** Modelled from the spec: [db[name].find_one({"email": e})], the first
    stored document of the collection whose [email] field is [e]. *)
Definition find_one (name : string) (e : string) (d : Database)
  : option document :=
  head (filter (λ x, matches_email e x = true) (collection name d)).

(** Modelled from the spec: [create_document(name, data)] stores one
    document under a store-chosen identifier [oid] and returns that
    identifier; with no store ([db is None]) it fails, which surfaces as
    a request-level failure ([None]). *)
Definition create_document (name : string) (fields : list (string * json))
    (oid : string) (db : option Database) : option (string * Database) :=
  d ← db;
  Some (oid,
        mkDatabase (<[name := collection name d ++ [mkDocument oid fields]]>
                      (collections d))).

(** What the client gets: the JSON body [{"token": ..., "user_id": ...}],
    or an error response when the handler raises. *)
Inductive response : Type :=
| Ok (token user_id : string)
| ServerError.

Section login.
(** The check behind [EmailStr] is pydantic's: [None] when the address
    is rejected, otherwise the address as the model keeps it. *)
Variable validate_email : string → option string.

(** [User(email=req.email, name=req.name, provider=req.provider)];
    [None] is pydantic's [ValidationError]. *)
Definition new_User (e : string) (n : option string) (p : string)
  : option User :=
  e' ← validate_email e;
  p' ← parse_provider p;
  Some (mkUser e' n None p' true).

(** [bool(db)], the test of [if db]: the module-level [db] is [None],
    which is false, or the store object, pymongo's [Database] (the
    handlers call [db["user"].find_one] and [db.list_collection_names()]
    on it), whose [__bool__] raises [NotImplementedError] and asks to
    compare with [None] instead.  [None] here is that exception. *)
Definition truth (db : option Database) : option bool :=
  match db with
  | Some _ => None
  | None => Some false
  end.

(** [login]: [oid] is the identifier the store would give a new
    document, [uuid4] the text of [str(uuid.uuid4())]; [db] is [None]
    when the module-level [db] is unset.  The conditional expression
    evaluates [if db] first, and an exception there leaves the handler;
    [str(existing.get("_id"))] is the identifier of the stored
    document. *)
Definition login (req : LoginRequest) (oid uuid4 : string)
    (db : option Database) : response * option Database :=
  match truth db with
  | None => (ServerError, db)
  | Some holds =>
      let existing :=
        if holds then d ← db; find_one "user" (email req) d else None in
      match existing with
      | Some doc => (Ok uuid4 (doc_id doc), db)
      | None =>
          match new_User (email req) (name req) (provider req) with
          | None => (ServerError, db)
          | Some user =>
              match create_document "user" (model_dump user) oid db with
              | None => (ServerError, db)
              | Some (user_id, d') => (Ok uuid4 user_id, Some d')
              end
          end
      end
  end.

(** The stored user documents. *)
Definition users (db : option Database) : list document :=
  match db with
  | Some d => collection "user" d
  | None => []
  end.

(** The stored user document, if any, that carries the address [e]. *)
Definition stored (e : string) (db : option Database) : option document :=
  head (filter (λ x, matches_email e x = true) (users db)).

(** The specification's claim about [login]: a request whose address
    has a stored user document returns that document's identifier and
    stores nothing; any other request stores exactly one new user
    document and returns its identifier; the token is the fresh UUID. *)
Definition find_or_create (req : LoginRequest) (oid uuid4 : string)
    (db : option Database) : Prop :=
  match stored (email req) db with
  | Some doc =>
      fst (login req oid uuid4 db) = Ok uuid4 (doc_id doc) ∧
      users (snd (login req oid uuid4 db)) = users db
  | None =>
      ∃ doc,
        users (snd (login req oid uuid4 db)) = users db ++ [doc] ∧
        fst (login req oid uuid4 db) = Ok uuid4 (doc_id doc)
  end.

End login.

End Auth.

(* ===================================================================== *)
(** ** Concrete hubs, messages and requests *)
(* ===================================================================== *)

Module Examples.
Import Json Datetime Hub Runtime Preview Auth.

(** Connection objects, named by their identity. *)
Definition s1 : nat := 1.
Definition s2 : nat := 2.
Definition s3 : nat := 3.

(** Three subscribers of project ["abc"]. *)
Definition hub_abc : PreviewHub nat :=
  foldl run_op init [OpConnect "abc" s1; OpConnect "abc" s2; OpConnect "abc" s3].

(** [s1] alone under ["abc"]. *)
Definition hub_one : PreviewHub nat :=
  foldl run_op init [OpConnect "abc" s1].

(** [s1] under ["abc"], [s2] under ["xyz"]. *)
Definition hub_pair : PreviewHub nat :=
  foldl run_op init [OpConnect "abc" s1; OpConnect "xyz" s2].

(** ["abc"] is a key of the dict, with an empty list. *)
Definition hub_left : PreviewHub nat :=
  foldl run_op init [OpConnect "abc" s1; OpDisconnect "abc" s1].

(** The program after the handlers of [s1], [s2] and [s3] connected to
    ["abc"]: the hub and the connections accepted, the latest first. *)
Definition st_abc : state nat := mkState hub_abc [s3; s2; s1].

(** The same with [s1] under ["abc"] and [s2] under ["xyz"]. *)
Definition st_pair : state nat := mkState hub_pair [s2; s1].

(** The same with [s1] alone. *)
Definition st_one : state nat := mkState hub_one [s1].

(** [{"x": 1}] *)
Definition payload_x : json := JObj [("x", JInt 1)].

(** 2024-05-17 12:30:45.000250 UTC *)
Definition may17 : datetime := mkDatetime 2024 5 17 12 30 45 250.

Definition all_ok : nat → send_result := λ _, SendOk.

(** The send to the second target of the snapshot raises. *)
Definition second_fails : nat → send_result :=
  λ i, if decide (i = 1) then SendError else SendOk.

(** While the first send is awaited another task connects [4] and
    disconnects [s3]. *)
Definition busy : env nat :=
  mkEnv all_ok
    (λ i, if decide (i = 0) then [OpConnect "abc" 4; OpDisconnect "abc" s3]
          else []).

(** The same interleaving, and the send to the second target raises. *)
Definition busy_fails : env nat := mkEnv second_fails (others busy).

Definition msg_x : inbound nat := mkInbound [] payload_x may17 (atomic all_ok).

Definition event_x : json := envelope payload_x may17.

(** The most permissive [EmailStr]: every address passes unchanged. *)
Definition any_email : string → option string := Some.

Definition ada : LoginRequest := mkLoginRequest "ada@example.com" None "email".

Definition empty_db : Database := mkDatabase ∅.

(** The store that holds the user document of [ada]. *)
Definition db_ada : Database :=
  mkDatabase
    {[ "user" :=
         [mkDocument "65f0a1"
            (model_dump (mkUser "ada@example.com" None None ProviderEmail true))] ]}.

End Examples.

(** Closes a decidable goal about concrete data by evaluating its
    decision procedure. *)
Ltac by_evaluation := refine (bool_decide_unpack _ _); vm_compute; exact I.

(* ===================================================================== *)
(** ** Hub states after a broadcast and over a handler's life *)
(* ===================================================================== *)

Module HubRuns.
Import Json Datetime Hub Preview.

Section runs.
Context {WebSocket : Type} `{!EqDecision WebSocket}.

(** The targets, from position [i] of the snapshot on, whose send
    returned normally. *)
Fixpoint survivors_from (out : nat → send_result) (i : nat)
    (l : list WebSocket) : list WebSocket :=
  match l with
  | [] => []
  | ws :: rest =>
      if raised (out i) then survivors_from out (S i) rest
      else ws :: survivors_from out (S i) rest
  end.

Definition survivors (out : nat → send_result) (l : list WebSocket)
  : list WebSocket :=
  survivors_from out 0 l.

(** [o] is a [connect] of [ws] under [p]. *)
Definition reconnects (p : string) (ws : WebSocket) (o : op WebSocket)
  : bool :=
  match o with
  | OpConnect q x => bool_decide (q = p ∧ x = ws)
  | OpDisconnect _ _ => false
  end.

(** No operation of the list connects [ws] under [p]. *)
Definition leave_alone (p : string) (ws : WebSocket)
    (ops : list (op WebSocket)) : Prop :=
  Forall (λ o, reconnects p ws o = false) ops.

(** During one turn of a handler's loop no other task connects [ws]
    under [p]. *)
Definition turn_leaves_alone (p : string) (ws : WebSocket)
    (m : inbound WebSocket) : Prop :=
  leave_alone p ws (meanwhile m) ∧
  ∀ i, leave_alone p ws (others (sends m) i).

(** A turn in which no other task touches the hub and every send
    returns normally. *)
Definition calm (m : inbound WebSocket) : Prop :=
  meanwhile m = [] ∧ quiet (sends m) ∧ reliable (sends m).

End runs.

End HubRuns.

(* ===================================================================== *)
(** ** The other request handlers of [main.py] *)
(* ===================================================================== *)

Module Api.
Import Json Auth.

(** *** [os.path] and [uuid] *)

Fixpoint has_slash (s : string) : bool :=
  match s with
  | EmptyString => false
  | String c r => if decide (c = "/"%char) then true else has_slash r
  end.

(** [os.path.basename(p)]: what follows the last ['/'] of [p]. *)
Fixpoint basename (s : string) : string :=
  match s with
  | EmptyString => EmptyString
  | String c r => if has_slash s then basename r else s
  end.

Definition starts_with_slash (s : string) : bool :=
  match s with
  | String c _ => bool_decide (c = "/"%char)
  | EmptyString => false
  end.

Fixpoint ends_with_slash (s : string) : bool :=
  match s with
  | EmptyString => false
  | String c EmptyString => bool_decide (c = "/"%char)
  | String _ r => ends_with_slash r
  end.

(** [os.path.join(a, b)] of [posixpath]. *)
Definition join (a b : string) : string :=
  if starts_with_slash b then b
  else if bool_decide (a = "") || ends_with_slash a then a +:+ b
  else a +:+ "/" +:+ b.

(** [UPLOAD_DIR = os.path.join(os.getcwd(), "uploads")] *)
Definition UPLOAD_DIR (cwd : string) : string := join cwd "uploads".

Definition hex_char (d : N) : ascii :=
  if (d <? 10)%N then ascii_of_N (48 + d) else ascii_of_N (87 + d).

(** ["%0<width>x" % n] for [n < 16 ^ width]. *)
Fixpoint hex_pad (width : nat) (n : N) : string :=
  match width with
  | O => ""
  | S w => String (hex_char ((n / 16 ^ N.of_nat w) mod 16)%N) (hex_pad w n)
  end.

(** [str(u)] of a [uuid.UUID] whose 128-bit value is [n]: the 32 hex
    digits in groups of 8, 4, 4, 4 and 12. *)
Definition uuid_str (n : N) : string :=
  hex_pad 8 (n / 16 ^ 24)%N +:+ "-" +:+ hex_pad 4 (n / 16 ^ 20)%N +:+ "-" +:+
  hex_pad 4 (n / 16 ^ 16)%N +:+ "-" +:+ hex_pad 4 (n / 16 ^ 12)%N +:+ "-" +:+
  hex_pad 12 n.

(** *** Replies and the local disk *)

(** What a handler gives back: the JSON body, or nothing when it
    raises. *)
Inductive reply : Type :=
| Replied (body : json)
| Raised.

(** What a path of the local disk holds. *)
Inductive entry : Type :=
| File (content : string)
| Dir.

(** The local disk, by path; two paths are the same file when they are
    the same string. *)
Record Disk : Type := mkDisk {
  entries : gmap string entry
}.

(** Modelled from the spec: the filter [{k: v}] of the document store
    selects the documents whose field [k] is the string [v]. *)
Definition field_is (k v : string) (d : document) : bool :=
  match assoc k (doc_fields d) with
  | Some (JStr v') => bool_decide (v = v')
  | _ => false
  end.

(** Modelled from the spec: [get_documents(name, {k: v}, limit)] of the
    document store ([database.py] is not among the sources), the first
    [limit] stored documents of the collection that pass the filter,
    oldest first; it fails with no store. *)
Definition get_documents (name k v : string) (limit : nat)
    (db : option Database) : option (list document) :=
  d ← db;
  Some (take limit (filter (λ x, field_is k v x = true) (collection name d))).

(** [d["_id"] = str(d.get("_id"))]: a stored document as it is listed. *)
Definition listed (d : document) : json :=
  JObj (("_id", JStr (doc_id d)) :: doc_fields d).

(** *** [schemas.py] *)

(** [Literal["16:9", "9:16", "1:1"]] *)
Inductive AspectRatio : Type :=
| Wide
| Tall
| Square.

Definition parse_aspect_ratio (s : string) : option AspectRatio :=
  if decide (s = "16:9") then Some Wide
  else if decide (s = "9:16") then Some Tall
  else if decide (s = "1:1") then Some Square
  else None.

Definition aspect_ratio_text (r : AspectRatio) : string :=
  match r with
  | Wide => "16:9"
  | Tall => "9:16"
  | Square => "1:1"
  end.

(** [Literal["720p", "1080p", "4K"]] *)
Inductive Resolution : Type :=
| P720
| P1080
| K4.

Definition parse_resolution (s : string) : option Resolution :=
  if decide (s = "720p") then Some P720
  else if decide (s = "1080p") then Some P1080
  else if decide (s = "4K") then Some K4
  else None.

Definition resolution_text (r : Resolution) : string :=
  match r with
  | P720 => "720p"
  | P1080 => "1080p"
  | K4 => "4K"
  end.

(** [Literal["video", "audio", "image"]] *)
Inductive Kind : Type :=
| Video
| Audio
| Image.

Definition parse_kind (s : string) : option Kind :=
  if decide (s = "video") then Some Video
  else if decide (s = "audio") then Some Audio
  else if decide (s = "image") then Some Image
  else None.

Definition kind_text (k : Kind) : string :=
  match k with
  | Video => "video"
  | Audio => "audio"
  | Image => "image"
  end.

(** [Timeline()], every field at its default, as [model_dump] shows
    it. *)
Definition default_timeline : json :=
  JObj [("fps", JInt 30); ("width", JInt 1920); ("height", JInt 1080);
        ("duration_ms", JInt 0);
        ("tracks", JObj [("video", JArr []); ("audio", JArr []);
                         ("titles", JArr []); ("effects", JArr [])])].

(** [class Project(BaseModel)] with the fields the handler leaves at
    their defaults. *)
Record Project : Type := mkProject {
  project_user_id : string;
  project_title : string;
  project_aspect_ratio : AspectRatio
}.

Definition dump_Project (x : Project) : list (string * json) :=
  [("user_id", JStr (project_user_id x)); ("title", JStr (project_title x));
   ("description", JNull);
   ("aspect_ratio", JStr (aspect_ratio_text (project_aspect_ratio x)));
   ("timeline", default_timeline); ("cover_url", JNull);
   ("template", JNull)].

(** [class MediaAsset(BaseModel)] with the fields the handler leaves at
    their defaults. *)
Record MediaAsset : Type := mkMediaAsset {
  asset_user_id : string;
  asset_kind : Kind;
  asset_filename : string;
  asset_url : string
}.

Definition dump_MediaAsset (x : MediaAsset) : list (string * json) :=
  [("project_id", JNull); ("user_id", JStr (asset_user_id x));
   ("kind", JStr (kind_text (asset_kind x)));
   ("filename", JStr (asset_filename x)); ("url", JStr (asset_url x));
   ("duration_ms", JNull); ("meta", JObj [])].

(** [class RenderJob(BaseModel)]; both handlers that build one pass
    [status="queued"] and leave [output_url] and [logs] at their
    defaults. *)
Record RenderJob : Type := mkRenderJob {
  job_user_id : string;
  job_project_id : option string;
  job_resolution : Resolution;
  job_aspect_ratio : AspectRatio;
  job_params : list (string * json)
}.

Definition dump_RenderJob (x : RenderJob) : list (string * json) :=
  [("user_id", JStr (job_user_id x));
   ("project_id", opt_str (job_project_id x));
   ("status", JStr "queued");
   ("resolution", JStr (resolution_text (job_resolution x)));
   ("aspect_ratio", JStr (aspect_ratio_text (job_aspect_ratio x)));
   ("output_url", JNull); ("logs", JArr []);
   ("params", JObj (job_params x))].

(** [class AIGenerateRequest(BaseModel)], as FastAPI hands it to the
    handler once validated. *)
Record AIGenerateRequest : Type := mkAIGenerateRequest {
  gen_prompt : string;
  gen_language : option string;
  gen_voice : option string;
  gen_style : option string;
  gen_duration_s : option Z;
  gen_aspect_ratio : AspectRatio
}.

(** [class TranscribeRequest(BaseModel)] *)
Record TranscribeRequest : Type := mkTranscribeRequest {
  transcribe_url : string;
  transcribe_language : option string
}.

(** [UploadFile]: the name the client gave, if any, and the bytes. *)
Record UploadFile : Type := mkUploadFile {
  filename : option string;
  content : string
}.

(** *** Projects *)

(** [create_project]: [aspect_ratio] is a form field with default
    ["16:9"]; [Project(...)] raises on any other text than the three of
    the [Literal]. *)
Definition create_project (title : string) (aspect_ratio : option string)
    (user_id : string) (oid : string) (db : option Database)
  : reply * option Database :=
  match parse_aspect_ratio (default "16:9" aspect_ratio) with
  | None => (Raised, db)
  | Some r =>
      match create_document "project"
              (dump_Project (mkProject user_id title r)) oid db with
      | None => (Raised, db)
      | Some (project_id, d') =>
          (Replied (JObj [("project_id", JStr project_id)]), Some d')
      end
  end.

(** [list_projects] *)
Definition list_projects (user_id : string) (db : option Database) : reply :=
  match get_documents "project" "user_id" user_id 50 db with
  | None => Raised
  | Some docs => Replied (JObj [("items", JArr (listed <$> docs))])
  end.

(** *** Uploads *)

(** How an f-string prints [file.filename]. *)
Definition format_filename (o : option string) : string :=
  match o with
  | Some s => s
  | None => "None"
  end.

(** [MediaAsset(user_id=..., kind=..., filename=file.filename, url=url)]:
    [None] is pydantic's [ValidationError], for a [kind] outside the
    [Literal] or a missing [filename]. *)
Definition new_MediaAsset (user_id kind : string) (name : option string)
    (url : string) : option MediaAsset :=
  k ← parse_kind kind;
  n ← name;
  Some (mkMediaAsset user_id k n url).

(** [upload_file]: [uuid] is the value of [uuid.uuid4()], [opened] tells
    whether [open(dest, "wb")] succeeds; the file is written before the
    [MediaAsset] is built. *)
Definition upload_file (cwd user_id kind : string) (file : UploadFile)
    (uuid : N) (opened : bool) (oid : string) (disk : Disk)
    (db : option Database) : reply * Disk * option Database :=
  let dest :=
    join (UPLOAD_DIR cwd)
      (uuid_str uuid +:+ "_" +:+ format_filename (filename file)) in
  if opened then
    let disk' := mkDisk (<[dest := File (content file)]> (entries disk)) in
    let url := "/uploads/" +:+ basename dest in
    match new_MediaAsset user_id kind (filename file) url with
    | None => (Raised, disk', db)
    | Some asset =>
        match create_document "mediaasset" (dump_MediaAsset asset) oid db with
        | None => (Raised, disk', db)
        | Some (asset_id, d') =>
            (Replied (JObj [("asset_id", JStr asset_id); ("url", JStr url)]),
             disk', Some d')
        end
    end
  else (Raised, disk, db).

(** What [GET /uploads/{name}] answers. *)
Inductive download : Type :=
| NotFound
| Stream (body : string)
| Broken.

(** [get_upload]: 404 when [os.path.exists(path)] is false; otherwise
    the response streams the file, and [open] inside the generator
    fails when the path is a directory. *)
Definition get_upload (cwd name : string) (disk : Disk) : download :=
  match entries disk !! join (UPLOAD_DIR cwd) name with
  | None => NotFound
  | Some (File c) => Stream c
  | Some Dir => Broken
  end.

(** *** Jobs *)

(** [ai_generate]: the job is built from constants and the prompt. *)
Definition ai_generate (req : AIGenerateRequest) (oid : string)
    (db : option Database) : reply * option Database :=
  let job :=
    mkRenderJob "system" None P1080 Wide
      [("prompt", JStr (gen_prompt req)); ("mode", JStr "text2video")] in
  match create_document "renderjob" (dump_RenderJob job) oid db with
  | None => (Raised, db)
  | Some (job_id, d') =>
      (Replied (JObj [("job_id", JStr job_id); ("message", JStr "Job queued")]),
       Some d')
  end.

(** [queue_render]: [resolution] and [aspect_ratio] are query
    parameters with defaults ["1080p"] and ["16:9"]. *)
Definition queue_render (project_id user_id : string)
    (resolution aspect_ratio : option string) (oid : string)
    (db : option Database) : reply * option Database :=
  match parse_resolution (default "1080p" resolution),
        parse_aspect_ratio (default "16:9" aspect_ratio) with
  | Some res, Some r =>
      match create_document "renderjob"
              (dump_RenderJob (mkRenderJob user_id (Some project_id) res r []))
              oid db with
      | None => (Raised, db)
      | Some (job_id, d') =>
          (Replied (JObj [("job_id", JStr job_id)]), Some d')
      end
  | _, _ => (Raised, db)
  end.

(** [list_jobs] *)
Definition list_jobs (user_id : string) (db : option Database) : reply :=
  match get_documents "renderjob" "user_id" user_id 50 db with
  | None => Raised
  | Some docs => Replied (JObj [("items", JArr (listed <$> docs))])
  end.

(** *** Canned answers *)

(** [x or d] on an optional string: [None] and [""] are both false. *)
Definition or_else (x : option string) (d : string) : string :=
  match x with
  | Some s => if decide (s = "") then d else s
  | None => d
  end.

(** [ai_transcribe] *)
Definition ai_transcribe (req : TranscribeRequest) : json :=
  JObj [("language", JStr (or_else (transcribe_language req) "en"));
        ("segments",
         JArr [JObj [("start_ms", JInt 0); ("end_ms", JInt 1500);
                     ("text", JStr "Hello everyone")];
               JObj [("start_ms", JInt 1600); ("end_ms", JInt 3200);
                     ("text", JStr "welcome to the AI editor")]])].

(** [get_templates] *)
Definition get_templates : json :=
  JObj [("items",
         JArr [JObj [("key", JStr "tiktok_fast");
                     ("title", JStr "TikTok Fast Cut");
                     ("aspect_ratio", JStr "9:16")];
               JObj [("key", JStr "yt_talking_head");
                     ("title", JStr "YouTube Talking Head");
                     ("aspect_ratio", JStr "16:9")];
               JObj [("key", JStr "promo_glitch");
                     ("title", JStr "Promo Glitch");
                     ("aspect_ratio", JStr "1:1")]])].

(** The aspect ratios [get_templates] offers. *)
Definition template_ratios : list string :=
  match get "items" get_templates with
  | Some (JArr items) =>
      omap (λ t, match get "aspect_ratio" t with
                 | Some (JStr r) => Some r
                 | _ => None
                 end) items
  | _ => []
  end.

(** *** The health check *)

(** [d[k] = v] on a dict: an existing key keeps its place. *)
Fixpoint setitem (k : string) (v : json) (d : list (string * json))
  : list (string * json) :=
  match d with
  | [] => [(k, v)]
  | (k', v') :: rest =>
      if decide (k = k') then (k, v) :: rest else (k', v') :: setitem k v rest
  end.

(** A Python [str] is a sequence of code points; the strings here hold
    its UTF-8 bytes.  A byte [10xxxxxx] continues the code point begun
    by the byte before it. *)
Definition is_continuation (c : ascii) : bool :=
  (128 <=? nat_of_ascii c) && (nat_of_ascii c <? 192).


(** [s[:n]]: the first [n] code points, each with all its bytes. *)
Fixpoint py_prefix (n : nat) (s : string) : string :=
  match s with
  | EmptyString => EmptyString
  | String c rest =>
      if is_continuation c then String c (py_prefix n rest)
      else
        match n with
        | 0 => EmptyString
        | S n' => String c (py_prefix n' rest)
        end
  end.

(** What [db.list_collection_names()] does: the names, or an exception
    with its text. *)
Inductive listing : Type :=
| Names (names : list string)
| ListingFailed (message : string).

(** [os.getenv(...)] in a condition: unset and empty both count as
    false. *)
Definition is_set (v : option string) : bool :=
  match v with
  | Some s => negb (bool_decide (s = ""))
  | None => false
  end.

Definition set_text (v : option string) : json :=
  JStr (if is_set v then "✅ Set" else "❌ Not Set").

(** [test_database]: [db] is [None] when the module-level [db] is
    unset, and otherwise tells what [list_collection_names] does;
    nothing in the outer [try] can raise outside the inner one. *)
Definition test_database (db : option listing)
    (database_url database_name : option string) : json :=
  let response :=
    [("backend", JStr "✅ Running"); ("database", JStr "❌ Not Available");
     ("database_url", JNull); ("database_name", JNull);
     ("connection_status", JStr "Not Connected"); ("collections", JArr [])] in
  JObj
    match db with
    | Some l =>
        let r1 := setitem "database" (JStr "✅ Available") response in
        let r2 := setitem "database_url" (set_text database_url) r1 in
        let r3 := setitem "database_name" (set_text database_name) r2 in
        match l with
        | Names names =>
            let r4 := setitem "collections" (JArr (JStr <$> take 10 names)) r3 in
            setitem "database" (JStr "✅ Connected & Working") r4
        | ListingFailed message =>
            setitem "database"
              (JStr ("⚠️  Connected but Error: " +:+ py_prefix 50 message))
              r3
        end
    | None =>
        setitem "database" (JStr "⚠️  Available but not initialized") response
    end.

End Api.

(* ===================================================================== *)
(** ** More concrete data *)
(* ===================================================================== *)

Module MoreExamples.
Import Json Datetime Hub Preview Auth Examples HubRuns Api.

(** The sends raise with [WebSocketDisconnect] where [second_fails]
    raises with another exception. *)
Definition second_disconnects : nat → send_result :=
  λ i, if decide (i = 1) then SendDisconnect else SendOk.

(** A second message, one second later. *)
Definition may17_later : datetime := mkDatetime 2024 5 17 12 30 46 0.

Definition msg_y : inbound nat :=
  mkInbound [] (JObj [("y", JInt 2)]) may17_later (atomic all_ok).

(** A turn during which another task connects [4], the send to the
    second target raises, and [s2] is disconnected by another task while
    each send is awaited. *)
Definition msg_rough : inbound nat :=
  mkInbound [OpConnect "abc" 4] payload_x may17
    (mkEnv second_fails (λ _, [OpDisconnect "abc" s2])).

(** The upload of a small file named [cat.png]. *)
Definition cat : UploadFile := mkUploadFile (Some "cat.png") "89PNG".

(** An upload whose client gave no file name. *)
Definition nameless : UploadFile := mkUploadFile None "89PNG".

Definition some_uuid : N := 0x3f2b8c1e9d4a4f6ab1c20123456789ab.

Definition empty_disk : Disk := mkDisk ∅.

End MoreExamples.

(* ===================================================================== *)
(** * Facts about timestamps *)
(* ===================================================================== *)

Section datetime_facts.
Import Datetime.
Local Open Scope N_scope.

Lemma digit_val_char d : d < 10 → digit_val (digit_char d) = Some d.
Proof.
  intros Hd. unfold digit_val, digit_char.
  rewrite N_ascii_embedding by lia.
  assert ((48 <=? 48 + d) = true) as -> by (apply N.leb_le; lia).
  assert ((48 + d <=? 57) = true) as -> by (apply N.leb_le; lia).
  simpl. f_equal. lia.
Qed.

(** Reading back [width] printed digits gives the number they print. *)
Lemma read_digits_zero_pad k n acc rest :
  read_digits k acc (zero_pad k n +:+ rest)
  = Some (acc * 10 ^ N.of_nat k + n mod 10 ^ N.of_nat k, rest).
Proof.
  revert acc. induction k as [|k IH]; intros acc.
  - simpl. rewrite N.mod_1_r. do 2 f_equal. lia.
  - cbn [zero_pad].
    change (String ?c ?s +:+ ?r) with (String c (s +:+ r)).
    cbn [read_digits].
    rewrite digit_val_char by (apply N.mod_upper_bound; lia).
    cbn [mbind option_bind]. rewrite IH. do 2 f_equal.
    rewrite Nat2N.inj_succ, N.pow_succ_r'.
    rewrite (N.mul_comm 10 (10 ^ N.of_nat k)).
    rewrite (N.Div0.mod_mul_r n (10 ^ N.of_nat k) 10). lia.
Qed.

Lemma read_digits_small k n rest :
  n < 10 ^ N.of_nat k →
  read_digits k 0 (zero_pad k n +:+ rest) = Some (n, rest).
Proof.
  intros Hn. rewrite read_digits_zero_pad.
  rewrite N.mod_small by done. do 2 f_equal.
Qed.

Lemma days_in_month_bound y m : days_in_month y m ≤ 31.
Proof.
  unfold days_in_month.
  destruct (is_leap y); destruct m as [|m]; try (simpl; lia);
    do 4 (try destruct m as [m|m|]); simpl; lia.
Qed.

Lemma expect_here c rest :
  expect c (String c EmptyString +:+ rest) = Some rest.
Proof.
  change (String c "" +:+ rest) with (String c rest).
  unfold expect. by rewrite decide_True.
Qed.

Lemma read_fraction_zero_pad us :
  us < 1000000 →
  read_fraction
    (if us =? 0 then "+00:00" else "." +:+ zero_pad 6 us +:+ "+00:00")
  = Some (us, "+00:00"%string).
Proof.
  intros Hus. destruct (N.eqb_spec us 0) as [->|Hne]; [done|].
  change ("." +:+ ?r) with (String "." r). cbn [read_fraction].
  by rewrite read_digits_small by (simpl; lia).
Qed.

(** What [isoformat] prints for a well-formed UTC [datetime] reads back,
    as an extended ISO-8601 timestamp with offset [+00:00], to the same
    [datetime]. *)
Lemma parse_isoformat d :
  valid d = true → parse_iso8601_utc (isoformat d) = Some d.
Proof.
  destruct d as [y mo dd h mi se us]. intros Hv.
  pose proof Hv as Hb. unfold valid in Hb.
  cbn [year month day hour minute second microsecond] in Hb.
  rewrite !andb_true_iff, !N.leb_le, !N.ltb_lt in Hb.
  destruct Hb as
    (((((((((Hy1 & Hy2) & Hm1) & Hm2) & Hd1) & Hd2) & Hh) & Hmi) & Hse) & Hus).
  pose proof (days_in_month_bound y mo) as Hdm.
  unfold isoformat, parse_iso8601_utc.
  cbn [year month day hour minute second microsecond].
  do 5 (rewrite read_digits_small by (simpl; lia); cbn [mbind option_bind];
        rewrite expect_here; cbn [mbind option_bind]).
  rewrite read_digits_small by (simpl; lia); cbn [mbind option_bind].
  rewrite read_fraction_zero_pad by done. cbn [mbind option_bind].
  rewrite decide_True by done. by rewrite Hv.
Qed.

End datetime_facts.

(* ===================================================================== *)
(** * Facts about the hub *)
(* ===================================================================== *)

Section hub_facts.
Import Hub.
Context {WebSocket : Type} `{!EqDecision WebSocket}.
Context {Event : Type}.
Implicit Types (self : PreviewHub WebSocket) (ws : WebSocket).
Implicit Types (l : list WebSocket) (p q : string) (event : Event).
Implicit Types (e : env WebSocket).

(** *** [list.remove] *)

Lemma list_remove_is_Some ws l : ws ∈ l → is_Some (list_remove ws l).
Proof.
  induction l as [|y l IH]; intros Hin; simpl.
  - by apply not_elem_of_nil in Hin.
  - destruct (decide (ws = y)) as [->|Hne]; [by eexists|].
    apply elem_of_cons in Hin as [?|Hin]; [done|].
    destruct (IH Hin) as [l' ->]. by eexists.
Qed.

Lemma list_remove_None ws l : ws ∉ l → list_remove ws l = None.
Proof.
  induction l as [|y l IH]; intros Hin; simpl; [done|].
  apply not_elem_of_cons in Hin as [Hne Hin].
  rewrite decide_False by done. by rewrite IH.
Qed.

Lemma list_remove_sublist ws l l' : list_remove ws l = Some l' → sublist l' l.
Proof.
  revert l'. induction l as [|y l IH]; intros l'; simpl; [done|].
  destruct (decide (ws = y)) as [->|Hne].
  - intros [= <-]. by apply sublist_cons.
  - destruct (list_remove ws l) as [l0|] eqn:E; simpl; [|done].
    intros [= <-]. apply sublist_skip. by apply IH.
Qed.

Lemma list_remove_occurrences ws l l' :
  list_remove ws l = Some l' →
  occurrences ws l = S (occurrences ws l').
Proof.
  revert l'. unfold occurrences.
  induction l as [|y l IH]; intros l'; simpl; [done|].
  destruct (decide (ws = y)) as [->|Hne].
  - intros [= <-]. by rewrite filter_cons_True.
  - destruct (list_remove ws l) as [l0|] eqn:E; simpl; [|done].
    intros [= <-]. rewrite !filter_cons_False by done. by apply IH.
Qed.

Lemma occurrences_0 ws l : ws ∉ l ↔ occurrences ws l = 0.
Proof.
  unfold occurrences. induction l as [|y l IH]; simpl.
  - split; [done|]. intros _. apply not_elem_of_nil.
  - rewrite not_elem_of_cons. destruct (decide (y = ws)) as [->|Hne].
    + rewrite filter_cons_True by done. simpl.
      split; [by intros [? _]|done].
    + rewrite filter_cons_False by done. rewrite <- IH.
      split; [by intros [_ ?]|]. intros ?. split; [congruence|done].
Qed.

Lemma occurrences_NoDup ws l : NoDup l → occurrences ws l ≤ 1.
Proof.
  unfold occurrences. induction 1 as [|y l Hy Hnd IH]; simpl; [lia|].
  destruct (decide (y = ws)) as [->|Hne].
  - rewrite filter_cons_True by done. simpl.
    apply occurrences_0 in Hy. unfold occurrences in Hy. lia.
  - by rewrite filter_cons_False.
Qed.

Lemma list_remove_NoDup ws l l' :
  NoDup l → list_remove ws l = Some l' → (ws ∉ l') ∧ NoDup l'.
Proof.
  intros Hnd Hrm. split.
  - apply occurrences_0. pose proof (occurrences_NoDup ws l Hnd).
    pose proof (list_remove_occurrences _ _ _ Hrm). lia.
  - eapply sublist_NoDup; [done|by eapply list_remove_sublist].
Qed.

(** *** [connect] and [disconnect] on the subscriber lists *)

Lemma subscribers_init p : subscribers (init (WebSocket:=WebSocket)) p = [].
Proof. unfold subscribers, init. simpl. by rewrite lookup_empty. Qed.

Lemma connect_accepted p ws self :
  ∃ self', connect p ws true self = Some self' ∧
           subscribers self' p = subscribers self p ++ [ws] ∧
           ∀ q, q ≠ p → subscribers self' q = subscribers self q.
Proof.
  eexists. split; [done|]. split.
  - unfold subscribers at 1. simpl. by rewrite lookup_insert_eq.
  - intros q Hq. unfold subscribers at 1. simpl.
    by rewrite lookup_insert_ne.
Qed.

Lemma connect_Some p ws acc self self' :
  connect p ws acc self = Some self' →
  acc = true ∧
  subscribers self' p = subscribers self p ++ [ws] ∧
  ∀ q, q ≠ p → subscribers self' q = subscribers self q.
Proof.
  destruct acc; [|done]. intros H.
  destruct (connect_accepted p ws self) as (s & Hs & ? & ?).
  rewrite Hs in H. injection H as ->. done.
Qed.

Lemma disconnect_absent p ws self :
  ws ∉ subscribers self p → disconnect p ws self = self.
Proof.
  unfold subscribers, disconnect.
  destruct (connections self !! p) as [l|]; simpl; [|done].
  intros Hin. by rewrite decide_False.
Qed.

Lemma subscribers_disconnect_ne p q ws self :
  q ≠ p → subscribers (disconnect p ws self) q = subscribers self q.
Proof.
  intros Hq. unfold disconnect.
  destruct (connections self !! p) as [l|] eqn:E; [|done].
  destruct (decide (ws ∈ l)); [|done].
  destruct (list_remove ws l); [|done].
  unfold subscribers. simpl. by rewrite lookup_insert_ne.
Qed.

Lemma subscribers_disconnect p ws self :
  ws ∈ subscribers self p →
  list_remove ws (subscribers self p)
  = Some (subscribers (disconnect p ws self) p).
Proof.
  unfold subscribers at 1 2, disconnect.
  destruct (connections self !! p) as [l|] eqn:E; simpl.
  - intros Hin. rewrite decide_True by done.
    destruct (list_remove_is_Some _ _ Hin) as [l' Hl']. rewrite Hl'.
    unfold subscribers. simpl. by rewrite lookup_insert_eq.
  - intros Hin. by apply not_elem_of_nil in Hin.
Qed.

Lemma disconnect_sublist p q ws self :
  sublist (subscribers (disconnect p ws self) q) (subscribers self q).
Proof.
  destruct (decide (q = p)) as [->|Hq].
  - destruct (decide (ws ∈ subscribers self p)) as [Hin|Hin].
    + eapply list_remove_sublist. by apply subscribers_disconnect.
    + by rewrite disconnect_absent.
  - by rewrite subscribers_disconnect_ne.
Qed.

Lemma disconnect_NoDup p ws self :
  NoDup (subscribers self p) →
  (ws ∉ subscribers (disconnect p ws self) p) ∧
  NoDup (subscribers (disconnect p ws self) p).
Proof.
  intros Hnd. destruct (decide (ws ∈ subscribers self p)) as [Hin|Hin].
  - eapply list_remove_NoDup; [done|]. by apply subscribers_disconnect.
  - by rewrite disconnect_absent.
Qed.

(** *** The loop of [broadcast] *)

Lemma broadcast_from_cons p event e i ws rest self :
  broadcast_from p event e i (ws :: rest) self
  = let self1 := foldl run_op self (others e i) in
    let self2 :=
      if raised (outcome e i) then disconnect p ws self1 else self1 in
    (fst (broadcast_from p event e (S i) rest self2),
     Attempt ws event (outcome e i)
       :: snd (broadcast_from p event e (S i) rest self2)).
Proof.
  simpl. destruct (outcome e i); simpl;
    by destruct (broadcast_from p event e (S i) rest _).
Qed.

(** The sends of a broadcast are fixed by the snapshot and by the
    results of the sends; what happens to the hub meanwhile plays no
    part. *)
Lemma broadcast_from_log p event e i snap self :
  snd (broadcast_from p event e i snap self)
  = imap (λ k ws, Attempt ws event (outcome e (i + k))) snap.
Proof.
  revert i self. induction snap as [|ws rest IH]; intros i self; [done|].
  rewrite broadcast_from_cons. cbn [snd imap]. f_equal.
  - by rewrite Nat.add_0_r.
  - rewrite IH. apply imap_ext. intros k x _. simpl. do 2 f_equal. lia.
Qed.

Lemma broadcast_log p event e self :
  snd (broadcast p event e self)
  = imap (λ k ws, Attempt ws event (outcome e k)) (subscribers self p).
Proof. unfold broadcast. by rewrite broadcast_from_log. Qed.

Lemma broadcast_targets p event e self :
  target <$> snd (broadcast p event e self) = subscribers self p.
Proof.
  rewrite broadcast_log. generalize (subscribers self p) as l.
  intros l. rewrite fmap_imap.
  rewrite <- (list_fmap_id l) at 2. rewrite <- imap_const.
  by apply imap_ext.
Qed.

Lemma broadcast_from_sublist p q event e i snap self :
  quiet e →
  sublist (subscribers (fst (broadcast_from p event e i snap self)) q)
          (subscribers self q).
Proof.
  intros Hq. revert i self.
  induction snap as [|ws rest IH]; intros i self; [reflexivity|].
  rewrite broadcast_from_cons. cbv zeta. cbn [fst]. rewrite (Hq i). cbn [foldl].
  etrans; [apply IH|]. destruct (raised (outcome e i)); [|reflexivity].
  apply disconnect_sublist.
Qed.

Lemma broadcast_from_other p q event e i snap self :
  quiet e → q ≠ p →
  subscribers (fst (broadcast_from p event e i snap self)) q
  = subscribers self q.
Proof.
  intros Hq Hne. revert i self.
  induction snap as [|ws rest IH]; intros i self; [done|].
  rewrite broadcast_from_cons. cbv zeta. cbn [fst]. rewrite (Hq i). cbn [foldl].
  rewrite IH. destruct (raised (outcome e i)); [|done].
  by apply subscribers_disconnect_ne.
Qed.

Lemma broadcast_from_removes p event e i snap self :
  quiet e → NoDup (subscribers self p) →
  ∀ k ws, snap !! k = Some ws → raised (outcome e (i + k)) = true →
          ws ∉ subscribers (fst (broadcast_from p event e i snap self)) p.
Proof.
  intros Hq. revert i self.
  induction snap as [|x rest IH]; intros i self Hnd k ws Hk Hfail; [done|].
  rewrite broadcast_from_cons. cbv zeta. cbn [fst]. rewrite (Hq i). cbn [foldl].
  destruct k as [|k]; simpl in Hk.
  - injection Hk as ->. rewrite Nat.add_0_r in Hfail. rewrite Hfail.
    intros Hin.
    eapply elem_of_sublist in Hin; [|by apply broadcast_from_sublist].
    by apply (disconnect_NoDup p ws self Hnd).
  - apply (IH (S i)) with (k := k); [|done|].
    + destruct (raised (outcome e i)); [|done].
      by apply disconnect_NoDup.
    + by replace (S i + k) with (i + S k) by lia.
Qed.

(** *** The invariant [one_project] *)

Lemma one_project_init : one_project (init (WebSocket:=WebSocket)).
Proof.
  intros p1 p2 ws Hin. rewrite subscribers_init in Hin.
  by apply not_elem_of_nil in Hin.
Qed.

Lemma one_project_shrink self self' :
  (∀ q, sublist (subscribers self' q) (subscribers self q)) →
  one_project self → one_project self'.
Proof.
  intros Hsub Hinv p1 p2 ws H1 H2.
  apply (Hinv p1 p2 ws).
  - eapply elem_of_sublist; [exact H1|apply Hsub].
  - eapply elem_of_sublist; [exact H2|apply Hsub].
Qed.

Lemma one_project_connect p ws acc self self' :
  (∀ q, q ≠ p → ws ∉ subscribers self q) →
  connect p ws acc self = Some self' →
  one_project self → one_project self'.
Proof.
  intros Hfresh Hc Hinv.
  apply connect_Some in Hc as (_ & Hp & Hother).
  assert (∀ q x, x ∈ subscribers self' q →
                 x ∈ subscribers self q ∨ (q = p ∧ x = ws)) as Hcase.
  { intros q x Hx. destruct (decide (q = p)) as [->|Hq].
    - rewrite Hp in Hx. apply elem_of_app in Hx as [?|Hx]; [by left|].
      apply list_elem_of_singleton in Hx. by right.
    - rewrite Hother in Hx by done. by left. }
  intros p1 p2 x H1 H2.
  apply Hcase in H1 as [H1|[E1 X1]]; apply Hcase in H2 as [H2|[E2 X2]].
  - by apply (Hinv p1 p2 x).
  - subst p2 x. destruct (decide (p1 = p)) as [|Hne]; [done|].
    by destruct (Hfresh p1 Hne).
  - subst p1 x. destruct (decide (p2 = p)) as [|Hne]; [done|].
    by destruct (Hfresh p2 Hne).
  - congruence.
Qed.

(** *** The claims about [broadcast], [connect] and [disconnect] *)

(** C9. A broadcast to a project with no subscriber, whether its key is
    absent from [connections] or maps to an empty list, returns without
    sending anything and leaves the hub as it was. *)
Theorem broadcast_no_subscribers p event e self :
  connections self !! p = None ∨ connections self !! p = Some [] →
  broadcast p event e self = (self, []).
Proof.
  intros H. unfold broadcast, subscribers. by destruct H as [-> | ->].
Qed.

(** C5. The connections a broadcast sends to are exactly, and in
    order, the subscribers listed under the project when the call
    starts.  The log of sends is a function of that snapshot and of the
    results of the sends alone: neither the removals the loop makes
    after a failed send nor the connects and disconnects of other tasks
    during the call change which connections are visited. *)
Theorem broadcast_snapshot p event e self :
  target <$> snd (broadcast p event e self) = subscribers self p ∧
  snd (broadcast p event e self)
  = imap (λ i ws, Attempt ws event (outcome e i)) (subscribers self p) ∧
  ∀ e', (∀ i, outcome e' i = outcome e i) →
        snd (broadcast p event e' self) = snd (broadcast p event e self).
Proof.
  split; [apply broadcast_targets|]. split; [apply broadcast_log|].
  intros e' Hout. rewrite !broadcast_log. apply imap_ext.
  intros i ws _. simpl. by rewrite Hout.
Qed.

End hub_facts.

(* ===================================================================== *)
(** * Facts about the states the program reaches *)
(* ===================================================================== *)

Section runtime_facts.
Import Hub Runtime.
Context {WebSocket : Type} `{!EqDecision WebSocket}.
Context {Event : Type}.
Implicit Types (self : PreviewHub WebSocket) (ws : WebSocket).
Implicit Types (l acc : list WebSocket) (p q : string) (event : Event).
Implicit Types (e : env WebSocket) (st : state WebSocket).
Implicit Types (ops : list (op WebSocket)).

(** *** [accept] *)

Lemma accept_Some ws handshake acc acc' :
  accept ws handshake acc = Some acc' →
  (ws ∉ acc) ∧ acc' = ws :: acc.
Proof.
  unfold accept. destruct (decide (ws ∈ acc)); [done|].
  destruct handshake; [|done]. by intros [= <-].
Qed.

Lemma accept_again ws handshake acc : ws ∈ acc → accept ws handshake acc = None.
Proof. intros Hin. unfold accept. by rewrite decide_True. Qed.

(** *** The invariant [sound] *)

Lemma sound_start : sound (start (WebSocket:=WebSocket)).
Proof.
  split; [|split].
  - intros p. cbn [the_hub start]. rewrite subscribers_init. apply NoDup_nil_2.
  - apply one_project_init.
  - intros p ws. cbn [the_hub start]. rewrite subscribers_init. by intros ?%not_elem_of_nil.
Qed.

Lemma sound_connect p ws self acc :
  sound (mkState self acc) → ws ∉ acc →
  ∀ self', connect p ws true self = Some self' →
           sound (mkState self' (ws :: acc)).
Proof.
  intros (Hnd & Hone & Hacc) Hnew self' Hc. cbn [the_hub accepted] in *.
  assert (∀ q, ws ∉ subscribers self q) as Hfresh.
  { intros q Hin. by apply Hnew, (Hacc q). }
  pose proof Hc as (_ & Hp & Hother)%connect_Some.
  split; [|split]; cbn [the_hub accepted].
  - intros q. destruct (decide (q = p)) as [->|Hq].
    + rewrite Hp. apply NoDup_app. split; [done|]. split.
      * intros x Hx ->%list_elem_of_singleton. by apply (Hfresh p).
      * apply NoDup_singleton.
    + by rewrite Hother.
  - eapply one_project_connect; [|exact Hc|done]. intros q _. apply Hfresh.
  - intros q x Hx. destruct (decide (q = p)) as [->|Hq].
    + rewrite Hp in Hx. apply elem_of_app in Hx as [Hx|Hx].
      * apply list_elem_of_further. by apply (Hacc p).
      * apply list_elem_of_singleton in Hx as ->. apply list_elem_of_here.
    + rewrite Hother in Hx by done. apply list_elem_of_further.
      by apply (Hacc q).
Qed.

Lemma sound_shrink self self' acc :
  (∀ q, sublist (subscribers self' q) (subscribers self q)) →
  sound (mkState self acc) → sound (mkState self' acc).
Proof.
  intros Hsub (Hnd & Hone & Hacc). split; [|split]; cbn [the_hub accepted] in *.
  - intros q. eapply sublist_NoDup; [apply Hnd|apply Hsub].
  - by eapply one_project_shrink.
  - intros q x Hx. apply (Hacc q). eapply elem_of_sublist; [exact Hx|apply Hsub].
Qed.

Lemma sound_disconnect p ws self acc :
  sound (mkState self acc) → sound (mkState (disconnect p ws self) acc).
Proof. apply sound_shrink. intros q. apply disconnect_sublist. Qed.

Lemma sound_run_ops ops self acc acc' :
  accept_all acc ops = Some acc' →
  sound (mkState self acc) →
  sound (mkState (foldl run_op self ops) acc') ∧ acc ⊆ acc'.
Proof.
  revert self acc. induction ops as [|o ops IH]; intros self acc Ha Hs.
  - injection Ha as <-. done.
  - destruct o as [q x|q x]; cbn [accept_all foldl run_op] in *.
    + destruct (accept x true acc) as [acc1|] eqn:Hx; [|done].
      cbn [mbind option_bind] in Ha.
      apply accept_Some in Hx as [Hnew ->].
      destruct (connect_accepted q x self) as (self1 & Hc & _).
      rewrite Hc. cbn [default from_option id].
      destruct (IH self1 (x :: acc) Ha) as [Hs' Hsub].
      { by eapply sound_connect. }
      split; [done|]. intros y Hy. apply Hsub. by apply list_elem_of_further.
    + apply IH; [done|]. by apply sound_disconnect.
Qed.

Lemma accept_env_S e i n acc :
  accept_env e i (S n) acc
  = accept_all acc (others e i) ≫= accept_env e (S i) n.
Proof. done. Qed.

Lemma sound_broadcast_from p event e snap :
  ∀ i self acc acc',
    accept_env e i (length snap) acc = Some acc' →
    sound (mkState self acc) →
    sound (mkState (fst (broadcast_from p event e i snap self)) acc') ∧
    acc ⊆ acc'.
Proof.
  induction snap as [|x rest IH]; intros i self acc acc' Ha Hs.
  - injection Ha as <-. done.
  - cbn [length] in Ha. rewrite accept_env_S in Ha.
    destruct (accept_all acc (others e i)) as [acc1|] eqn:H1; [|done].
    cbn [mbind option_bind] in Ha.
    destruct (sound_run_ops _ self _ _ H1 Hs) as [Hs1 Hsub1].
    rewrite broadcast_from_cons. cbv zeta. cbn [fst].
    set (self1 := foldl run_op self (others e i)) in *.
    assert (sound (mkState (if raised (outcome e i)
                            then disconnect p x self1 else self1) acc1))
      as Hs2.
    { destruct (raised (outcome e i)); [by apply sound_disconnect|done]. }
    destruct (IH (S i) _ acc1 acc' Ha Hs2) as [Hs3 Hsub3].
    split; [done|]. intros y Hy. by apply Hsub3, Hsub1.
Qed.

Lemma sound_step st st' :
  step (Event:=Event) st st' → sound st → sound st' ∧ accepted st ⊆ accepted st'.
Proof.
  destruct 1 as [p ws handshake st st' Hc|p ws st|p event e st acc' Ha];
    intros Hs.
  - unfold connect_ws in Hc.
    destruct (accept ws handshake (accepted st)) as [acc1|] eqn:Hx; [|done].
    cbn [mbind option_bind] in Hc.
    apply accept_Some in Hx as [Hnew ->].
    destruct (connect p ws true (the_hub st)) as [hub1|] eqn:Hh; [|done].
    injection Hc as <-. destruct st as [self acc]. cbn [the_hub accepted] in *. split.
    + by eapply sound_connect.
    + intros y Hy. by apply list_elem_of_further.
  - destruct st as [self acc]. cbn [the_hub accepted]. split; [by apply sound_disconnect|done].
  - destruct st as [self acc]. cbn [the_hub accepted] in *. unfold broadcast.
    by eapply sound_broadcast_from.
Qed.

(** Every state the program reaches is [sound]. *)
Lemma reachable_sound st : reachable (Event:=Event) st → sound st.
Proof.
  unfold reachable. intros Hr.
  apply (rtc_ind_r (R:=step (Event:=Event)) (λ s, sound s) start);
    [apply sound_start| |exact Hr].
  intros st1 st2 _ Hstep IH. by apply (sound_step st1 st2).
Qed.

(** *** A connection that was accepted and is not listed stays out *)

Lemma accept_all_mono ops acc acc' :
  accept_all acc ops = Some acc' → acc ⊆ acc'.
Proof.
  revert acc. induction ops as [|o ops IH]; intros acc Ha.
  - by injection Ha as <-.
  - destruct o as [q x|q x]; cbn [accept_all] in Ha; [|by apply IH].
    destruct (accept x true acc) as [acc1|] eqn:Hx; [|done].
    apply accept_Some in Hx as [_ ->]. cbn [mbind option_bind] in Ha.
    intros y Hy. apply (IH _ Ha). by apply list_elem_of_further.
Qed.

Lemma accept_env_mono e n i acc acc' :
  accept_env e i n acc = Some acc' → acc ⊆ acc'.
Proof.
  revert i acc. induction n as [|n IH]; intros i acc Ha.
  - by injection Ha as <-.
  - rewrite accept_env_S in Ha.
    destruct (accept_all acc (others e i)) as [acc1|] eqn:H1; [|done].
    cbn [mbind option_bind] in Ha. intros y Hy.
    apply (IH _ _ Ha). by apply (accept_all_mono _ _ _ H1).
Qed.

Lemma accept_env_prefix e n m i acc acc' :
  accept_env e i (n + m) acc = Some acc' →
  ∃ acc1, accept_env e i n acc = Some acc1.
Proof.
  revert i acc. induction n as [|n IH]; intros i acc Ha; [by eexists|].
  cbn [Nat.add] in Ha. rewrite accept_env_S in *.
  destruct (accept_all acc (others e i)) as [acc1|]; [|done].
  cbn [mbind option_bind] in *. by eapply IH.
Qed.

Lemma run_ops_absent p ws ops self acc acc' :
  accept_all acc ops = Some acc' →
  ws ∈ acc → ws ∉ subscribers self p →
  ws ∉ subscribers (foldl run_op self ops) p.
Proof.
  revert self acc. induction ops as [|o ops IH]; intros self acc Ha Hin Hout.
  - done.
  - destruct o as [q x|q x]; cbn [accept_all foldl run_op] in *.
    + destruct (accept x true acc) as [acc1|] eqn:Hx; [|done].
      apply accept_Some in Hx as [Hnew ->]. cbn [mbind option_bind] in Ha.
      destruct (connect_accepted q x self) as (self1 & Hc & Hq & Hother).
      rewrite Hc. cbn [default from_option id].
      apply (IH self1 (x :: acc) Ha); [by apply list_elem_of_further|].
      destruct (decide (p = q)) as [->|Hne].
      * rewrite Hq. intros [?| ->%list_elem_of_singleton]%elem_of_app; done.
      * by rewrite Hother.
    + apply (IH _ acc Ha Hin). intros Hx. apply Hout.
      eapply elem_of_sublist; [exact Hx|apply disconnect_sublist].
Qed.

Lemma broadcast_from_absent q p ws event e snap :
  ∀ i self acc acc',
    accept_env e i (length snap) acc = Some acc' →
    ws ∈ acc → ws ∉ subscribers self p →
    ws ∉ subscribers (fst (broadcast_from q event e i snap self)) p.
Proof.
  induction snap as [|x rest IH]; intros i self acc acc' Ha Hin Hout; [done|].
  cbn [length] in Ha. rewrite accept_env_S in Ha.
  destruct (accept_all acc (others e i)) as [acc1|] eqn:H1; [|done].
  cbn [mbind option_bind] in Ha.
  rewrite broadcast_from_cons. cbv zeta. cbn [fst].
  apply (IH (S i) _ acc1 acc' Ha).
  - by apply (accept_all_mono _ _ _ H1).
  - pose proof (run_ops_absent p ws _ self _ _ H1 Hin Hout) as Hout1.
    destruct (raised (outcome e i)); [|done].
    intros Hx. apply Hout1.
    eapply elem_of_sublist; [exact Hx|apply disconnect_sublist].
Qed.

Lemma broadcast_from_drops p ws event e snap :
  ∀ i k self acc acc',
    sound (mkState self acc) →
    accept_env e i (length snap) acc = Some acc' →
    snap !! k = Some ws → ws ∈ acc →
    raised (outcome e (i + k)) = true →
    ws ∉ subscribers (fst (broadcast_from p event e i snap self)) p.
Proof.
  induction snap as [|x rest IH]; intros i k self acc acc' Hs Ha Hk Hin Hfail;
    [done|].
  cbn [length] in Ha. rewrite accept_env_S in Ha.
  destruct (accept_all acc (others e i)) as [acc1|] eqn:H1; [|done].
  cbn [mbind option_bind] in Ha.
  destruct (sound_run_ops _ self _ _ H1 Hs) as [Hs1 Hsub1].
  rewrite broadcast_from_cons. cbv zeta. cbn [fst].
  set (self1 := foldl run_op self (others e i)) in *.
  destruct k as [|k]; cbn in Hk.
  - injection Hk as ->. rewrite Nat.add_0_r in Hfail. rewrite Hfail.
    apply (broadcast_from_absent p p ws event e rest (S i) _ acc1 acc' Ha);
      [by apply Hsub1|].
    apply disconnect_NoDup. apply Hs1.
  - apply (IH (S i) k _ acc1 acc'); [|done|done|by apply Hsub1|].
    + destruct (raised (outcome e i)); [by apply sound_disconnect|done].
    + by replace (S i + k) with (i + S k) by lia.
Qed.

Lemma step_absent p ws st st' :
  step (Event:=Event) st st' →
  ws ∈ accepted st → ws ∉ subscribers (the_hub st) p →
  ws ∈ accepted st' ∧ ws ∉ subscribers (the_hub st') p.
Proof.
  destruct 1 as [q x handshake st st' Hc|q x st|q event e st acc' Ha];
    intros Hin Hout.
  - unfold connect_ws in Hc.
    destruct (accept x handshake (accepted st)) as [acc1|] eqn:Hx; [|done].
    cbn [mbind option_bind] in Hc.
    apply accept_Some in Hx as [Hnew ->].
    destruct (connect_accepted q x (the_hub st)) as (hub1 & Hh & Hq & Hother).
    rewrite Hh in Hc. injection Hc as <-. cbn [the_hub accepted]. split.
    + by apply list_elem_of_further.
    + destruct (decide (p = q)) as [->|Hne].
      * rewrite Hq. intros [?| ->%list_elem_of_singleton]%elem_of_app; done.
      * by rewrite Hother.
  - cbn [the_hub accepted]. split; [done|]. intros Hx. apply Hout.
    eapply elem_of_sublist; [exact Hx|apply disconnect_sublist].
  - cbn [the_hub accepted]. split.
    + by apply (accept_env_mono _ _ _ _ _ Ha).
    + unfold broadcast. by eapply broadcast_from_absent.
Qed.

Lemma steps_absent p ws st st' :
  rtc (step (Event:=Event)) st st' →
  ws ∈ accepted st → ws ∉ subscribers (the_hub st) p →
  ws ∈ accepted st' ∧ ws ∉ subscribers (the_hub st') p.
Proof.
  induction 1 as [|st1 st2 st3 Hstep _ IH]; [done|]. intros Hin Hout.
  destruct (step_absent p ws st1 st2 Hstep Hin Hout). by apply IH.
Qed.

(** *** The claims about the states the program reaches *)

(** C2. During a broadcast from a state the program reaches, whatever
    other tasks do meanwhile, a send that raises (either [except]
    clause) takes the connection off the project's list at once, when
    the exception is handled, and it is off the list when the broadcast
    returns; every connection of the snapshot has its own send all the
    same, so the failure reaches no other target and nothing is raised
    by [broadcast]; and no later broadcast to the project, whatever the
    program did in between, sends to the failed connection. *)
Theorem broadcast_isolates_failure p event e st acc' i ws :
  reachable (Event:=Event) st →
  accept_env e 0 (length (subscribers (the_hub st) p)) (accepted st)
  = Some acc' →
  subscribers (the_hub st) p !! i = Some ws →
  raised (outcome e i) = true →
  (ws ∉ subscribers
          (fst (broadcast_from p event e 0
                  (take (S i) (subscribers (the_hub st) p)) (the_hub st))) p) ∧
  (ws ∉ subscribers (fst (broadcast p event e (the_hub st))) p) ∧
  (∀ j ws', subscribers (the_hub st) p !! j = Some ws' →
     snd (broadcast p event e (the_hub st)) !! j
     = Some (Attempt ws' event (outcome e j))) ∧
  (∀ st',
     rtc (step (Event:=Event))
       (mkState (fst (broadcast p event e (the_hub st))) acc') st' →
     ∀ event' e',
       ¬ attempted ws (snd (broadcast p event' e' (the_hub st')))).
Proof.
  intros Hr Ha Hi Hfail. pose proof (reachable_sound st Hr) as Hs.
  destruct st as [self acc]. cbn [the_hub accepted] in *.
  assert (ws ∈ acc) as Hacc.
  { destruct Hs as (_ & _ & Hlisted). apply (Hlisted p).
    cbn [the_hub]. by eapply list_elem_of_lookup_2. }
  assert (ws ∉ subscribers (fst (broadcast p event e self)) p) as Hgone.
  { unfold broadcast.
    by apply (broadcast_from_drops p ws event e _ 0 i self acc acc'). }
  split; [|split; [done|split]].
  - pose proof (lookup_lt_Some _ _ _ Hi) as Hlt.
    set (l := subscribers self p) in *.
    assert (length l = S i + (length l - S i)) as Hlen by lia.
    rewrite Hlen in Ha.
    destruct (accept_env_prefix e (S i) _ 0 acc acc' Ha) as [acc1 Ha1].
    apply (broadcast_from_drops p ws event e _ 0 i self acc acc1);
      [done| |by rewrite lookup_take_lt by lia|done|done].
    by rewrite length_take, Nat.min_l by lia.
  - intros j ws' Hj. by rewrite broadcast_log, list_lookup_imap, Hj.
  - intros st' Hsteps event' e'. unfold attempted.
    rewrite broadcast_targets.
    apply (steps_absent p ws _ st' Hsteps); cbn [the_hub accepted]; [|done].
    by apply (accept_env_mono _ _ _ _ _ Ha).
Qed.

(** C4. In every state the program reaches, for distinct projects
    [p1] and [p2], nothing broadcast under [p1] is sent to a connection
    registered under [p2]: the sends go to the connections listed under
    [p1], and no connection is listed under both. *)
Theorem broadcast_isolation p1 p2 event e st :
  reachable (Event:=Event) st → p1 ≠ p2 →
  isolated p1 p2 event e (the_hub st) ∧
  ∀ ws, attempted ws (snd (broadcast p1 event e (the_hub st))) →
        ws ∈ subscribers (the_hub st) p1.
Proof.
  intros Hr Hne. destruct (reachable_sound st Hr) as (_ & Hone & _).
  unfold isolated, attempted. rewrite broadcast_targets. split; [|done].
  intros ws H2 H1. by apply Hne, (Hone p1 p2 ws).
Qed.

(** C6. In every state the program reaches each project lists a
    connection object at most once.  [connect] for a connection that is
    registered raises at [accept] and changes nothing, so the single
    entry stays single; for a connection not accepted before, whose
    handshake completes, it appends one entry; and one broadcast sends
    to a connection at most once. *)
Theorem connect_single_entry st :
  reachable (Event:=Event) st →
  (∀ p, NoDup (subscribers (the_hub st) p)) ∧
  (∀ p q ws handshake,
     ws ∈ subscribers (the_hub st) p →
     connect_ws q ws handshake st = None ∧
     occurrences ws (subscribers (the_hub st) p) = 1) ∧
  (∀ p ws, ws ∉ accepted st →
     ∃ st', connect_ws p ws true st = Some st' ∧
            subscribers (the_hub st') p
            = subscribers (the_hub st) p ++ [ws]) ∧
  (∀ p event e x,
     occurrences x (target <$> snd (broadcast p event e (the_hub st))) ≤ 1).
Proof.
  intros Hr. destruct (reachable_sound st Hr) as (Hnd & _ & Hlisted).
  split; [done|]. split; [|split].
  - intros p q ws handshake Hin. split.
    + unfold connect_ws. rewrite accept_again; [done|]. by apply (Hlisted p).
    + pose proof (occurrences_NoDup ws _ (Hnd p)) as Hle.
      destruct (occurrences ws (subscribers (the_hub st) p)) as [|n] eqn:E;
        [|lia].
      by apply occurrences_0 in E.
  - intros p ws Hnew. unfold connect_ws, accept.
    rewrite decide_False by done. cbn [mbind option_bind].
    destruct (connect_accepted p ws (the_hub st)) as (hub1 & -> & Hp & _).
    cbn [mbind option_bind]. by eexists.
  - intros p event e x. rewrite broadcast_targets. by apply occurrences_NoDup.
Qed.

(** C7. In every state the program reaches by [connect], [disconnect]
    and [broadcast], a connection handle is listed under at most one
    project, and each of these operations leads to a state where this
    still holds. *)
Theorem reachable_one_project st :
  reachable (Event:=Event) st →
  one_project (the_hub st) ∧
  ∀ st', step (Event:=Event) st st' → one_project (the_hub st').
Proof.
  intros Hr. pose proof (reachable_sound st Hr) as Hs.
  split; [apply Hs|]. intros st' Hstep.
  by destruct (sound_step st st' Hstep Hs) as [(_ & Hone & _) _].
Qed.

(** C8. The guard of [disconnect] keeps [list.remove] from raising; for
    a connection the project does not list, never added or already
    removed, the call leaves the hub exactly as it was; and in every
    state the program reaches one call removes the connection, so the
    second of two consecutive calls changes nothing. *)
Theorem disconnect_unregistered p ws :
  (∀ l, ws ∈ l → is_Some (list_remove ws l)) ∧
  (∀ self, ws ∉ subscribers self p → disconnect p ws self = self) ∧
  (∀ st, reachable (Event:=Event) st →
     (ws ∉ subscribers (disconnect p ws (the_hub st)) p) ∧
     second_disconnect_noop p ws (the_hub st)).
Proof.
  split; [apply list_remove_is_Some|].
  split; [intros self; apply disconnect_absent|].
  intros st Hr. destruct (reachable_sound st Hr) as (Hnd & _ & _).
  destruct (disconnect_NoDup p ws (the_hub st) (Hnd p)) as [Hout _].
  split; [done|]. unfold second_disconnect_noop. by apply disconnect_absent.
Qed.

End runtime_facts.

(* ===================================================================== *)
(** * Facts about the preview handler *)
(* ===================================================================== *)

Section preview_facts.
Import Json Datetime Hub Preview.
Context {WebSocket : Type} `{!EqDecision WebSocket}.
Implicit Types (hub : PreviewHub WebSocket) (ws sender : WebSocket).
Implicit Types (p : string) (m : inbound WebSocket).

Lemma on_message_log p m hub :
  snd (on_message p m hub)
  = imap (λ i ws, Attempt ws (envelope (payload m) (clock m))
                    (outcome (sends m) i))
      (subscribers hub p).
Proof. unfold on_message. apply broadcast_log. Qed.

(** A handler whose [accept] succeeded has its connection among the
    subscribers of its project when it enters the loop. *)
Lemma preview_ws_registers p sender hub hub1 :
  connect p sender true hub = Some hub1 → sender ∈ subscribers hub1 p.
Proof.
  intros (_ & -> & _)%connect_Some. apply elem_of_app. right.
  by apply list_elem_of_singleton.
Qed.

Lemma on_message_attempt p m hub ws :
  ws ∈ subscribers hub p →
  ∃ i, subscribers hub p !! i = Some ws ∧
       snd (on_message p m hub) !! i
       = Some (Attempt ws (envelope (payload m) (clock m))
                 (outcome (sends m) i)).
Proof.
  intros (i & Hi)%list_elem_of_lookup. exists i. split; [done|].
  by rewrite on_message_log, list_lookup_imap, Hi.
Qed.

(** A handler whose [accept] raises registers nothing and sends
    nothing. *)
Lemma preview_ws_refused sender p msgs fin hub :
  preview_ws sender p false msgs fin hub = None.
Proof. done. Qed.

(** Whatever way a handler ends, its log starts with the sends of its
    loop. *)
Lemma preview_ws_log sender p msgs fin hub hub1 :
  connect p sender true hub = Some hub1 →
  ∃ hub' log3,
    preview_ws sender p true msgs fin hub
    = Some (hub', snd (receive_loop p msgs hub1) ++ log3).
Proof.
  intros Hc. unfold preview_ws. rewrite Hc. cbn [mbind option_bind].
  destruct (receive_loop p msgs hub1) as [hub2 log]. cbn [snd].
  destruct fin as [last|last|m k].
  - exists (disconnect p sender (foldl run_op hub2 last)), [].
    by rewrite app_nil_r.
  - exists (foldl run_op hub2 last), []. by rewrite app_nil_r.
  - destruct (broadcast_cancelled p (envelope (payload m) (clock m))
                (sends m) k (foldl run_op hub2 (meanwhile m)))
      as [hub3 log3].
    by exists hub3, log3.
Qed.

(** The first message a handler receives, with no other task in between,
    is sent back to its own connection, however the handler ends
    later. *)
Lemma preview_ws_echo sender p m msgs fin hub :
  meanwhile m = [] →
  ∃ hub' log,
    preview_ws sender p true (m :: msgs) fin hub = Some (hub', log) ∧
    attempted sender log ∧
    (reliable (sends m) →
     delivered sender (envelope (payload m) (clock m)) log).
Proof.
  intros Hm.
  destruct (connect_accepted p sender hub) as (hub1 & Hc & Hp & _).
  destruct (preview_ws_log sender p (m :: msgs) fin hub hub1 Hc)
    as (hub' & log3 & ->).
  cbn [receive_loop]. rewrite Hm. cbn [foldl].
  assert (sender ∈ subscribers hub1 p) as Hin
    by by eapply preview_ws_registers.
  destruct (on_message_attempt p m hub1 sender Hin) as (i & _ & Hlog).
  destruct (on_message p m hub1) as [hub2 log1].
  destruct (receive_loop p msgs hub2) as [hub3 log2].
  cbn [snd] in *. do 2 eexists. split; [reflexivity|].
  apply list_elem_of_lookup_2 in Hlog. split.
  - unfold attempted. rewrite !fmap_app. apply elem_of_app. left.
    apply elem_of_app. left.
    apply list_elem_of_fmap. eexists. split; [|exact Hlog]. done.
  - intros Hok. rewrite Hok in Hlog. unfold delivered.
    apply elem_of_app. left. apply elem_of_app. by left.
Qed.


(** C3. Whatever the handler sends for an inbound payload is the dict
    with exactly the keys [type], [data] and [ts], in which [type] is
    ["event"], [data] is the payload as [receive_json] returned it, and
    [ts] is the text [isoformat] gives for the server's clock reading,
    an ISO-8601 timestamp with offset [+00:00] that reads back to that
    reading. *)
Theorem envelope_shape p m hub a :
  a ∈ snd (on_message p m hub) →
  valid (clock m) = true →
  sent a = JObj [("type", JStr "event"); ("data", payload m);
                 ("ts", JStr (isoformat (clock m)))] ∧
  keys (sent a) = ["type"; "data"; "ts"] ∧
  get "type" (sent a) = Some (JStr "event") ∧
  get "data" (sent a) = Some (payload m) ∧
  get "ts" (sent a) = Some (JStr (isoformat (clock m))) ∧
  parse_iso8601_utc (isoformat (clock m)) = Some (clock m).
Proof.
  rewrite on_message_log. intros (i & ws & -> & _)%elem_of_lookup_imap Hv.
  cbn [sent]. unfold envelope. split; [done|].
  split; [done|]. split; [done|]. split; [done|]. split; [done|].
  by apply parse_isoformat.
Qed.

End preview_facts.

(* ===================================================================== *)
(** * Facts about login *)
(* ===================================================================== *)

Section login_facts.
Import Json Auth.
Variable validate_email : string → option string.
Implicit Types (req : LoginRequest) (d : Database).

(** With a store the test [if db] raises before [find_one] is called. *)
Lemma login_store req oid uuid4 d :
  login validate_email req oid uuid4 (Some d) = (ServerError, Some d).
Proof. done. Qed.

(** Without a store [create_document] fails, when [User(...)] has not
    failed before it. *)
Lemma login_no_store req oid uuid4 :
  login validate_email req oid uuid4 None = (ServerError, None).
Proof.
  unfold login. cbn [truth].
  by destruct (new_User validate_email (email req) (name req) (provider req)).
Qed.

(** C10. [login] as written neither finds nor creates.  With a store the
    truth test [if db] raises, so the request fails before the look-up,
    whether or not the address has a stored document; without a store it
    fails at [create_document].  No request is answered with a token and
    nothing is ever stored, which is not the find-or-create the claim
    describes; the check [db is not None] of [test_database] is what
    the test was meant to be. *)
Theorem login_truth_test_raises req oid uuid4 (db : option Database) :
  login validate_email req oid uuid4 db = (ServerError, db) ∧
  ¬ find_or_create validate_email req oid uuid4 db.
Proof.
  assert (login validate_email req oid uuid4 db = (ServerError, db)) as Hl.
  { destruct db as [d|]; [apply login_store|apply login_no_store]. }
  split; [done|]. unfold find_or_create. rewrite Hl. cbn [fst snd].
  destruct (stored (email req) db) as [doc|].
  - by intros [? _].
  - intros (doc & Hu & _). apply (f_equal length) in Hu.
    rewrite length_app in Hu. simpl in Hu. lia.
Qed.

End login_facts.

(* ===================================================================== *)
(** * Concrete runs *)
(* ===================================================================== *)

Section concrete_runs.
Import Json Datetime Hub Runtime Preview Auth Examples.


(** Every message sent for [{"x": 1}] under ["abc"] is the envelope
    with the timestamp of the clock reading. *)
Lemma envelope_shape_witness :
  Attempt s2 event_x SendOk ∈ snd (on_message "abc" msg_x hub_abc) ∧
  valid may17 = true ∧
  sent (Attempt s2 event_x SendOk)
  = JObj [("type", JStr "event"); ("data", payload_x);
          ("ts", JStr "2024-05-17T12:30:45.000250+00:00")].
Proof.
  assert (Attempt s2 event_x SendOk ∈ snd (on_message "abc" msg_x hub_abc))
    as Hin.
  { vm_compute. apply list_elem_of_further, list_elem_of_here. }
  assert (valid may17 = true) as Hv by reflexivity.
  split; [exact Hin|]. split; [exact Hv|].
  exact (proj1 (envelope_shape "abc" msg_x hub_abc _ Hin Hv)).
Defined.

(** While the first send is awaited another task connects [4] and
    disconnects [s3]: the broadcast still visits [s1], [s2], [s3]. *)
Example broadcast_snapshot_busy :
  target <$> snd (broadcast "abc" event_x busy hub_abc) = [s1; s2; s3] ∧
  subscribers (fst (broadcast "abc" event_x busy hub_abc)) "abc"
  = [s1; s2; 4].
Proof. by vm_compute. Qed.

(** A project that never had a subscriber, and one whose only
    subscriber left. *)
Lemma broadcast_no_subscribers_witness :
  broadcast "abc" event_x busy init = (init, []) ∧
  broadcast "abc" event_x busy hub_left = (hub_left, []).
Proof.
  split.
  - apply (broadcast_no_subscribers "abc" event_x busy init).
    left. by vm_compute.
  - apply (broadcast_no_subscribers "abc" event_x busy hub_left).
    right. by vm_compute.
Defined.

(** The three example states are states of the program. *)
Lemma reachable_st_one : reachable (Event:=json) st_one.
Proof. apply rtc_once. by apply (step_connect "abc" s1 true). Qed.

Lemma reachable_st_pair : reachable (Event:=json) st_pair.
Proof.
  eapply rtc_r; [apply reachable_st_one|].
  by apply (step_connect "xyz" s2 true).
Qed.

Lemma reachable_st_abc : reachable (Event:=json) st_abc.
Proof.
  eapply rtc_r; [eapply rtc_r; [apply reachable_st_one|]|].
  - by apply (step_connect "abc" s2 true).
  - by apply (step_connect "abc" s3 true).
Qed.

(** Three subscribers; while the first send is awaited another task
    connects [4] and disconnects [s3], and the send to [s2] raises:
    [s2] is off the list, [s3] is sent the event all the same, and the
    next broadcast does not send to [s2]. *)
Lemma broadcast_isolates_failure_witness :
  accept_env busy_fails 0 3 [s3; s2; s1] = Some [4; s3; s2; s1] ∧
  subscribers hub_abc "abc" !! 1 = Some s2 ∧
  raised (outcome busy_fails 1) = true ∧
  (s2 ∉ subscribers (fst (broadcast "abc" event_x busy_fails hub_abc)) "abc") ∧
  snd (broadcast "abc" event_x busy_fails hub_abc) !! 2
  = Some (Attempt s3 event_x SendOk) ∧
  ¬ attempted s2
      (snd (broadcast "abc" event_x busy
              (fst (broadcast "abc" event_x busy_fails hub_abc)))).
Proof.
  assert (accept_env busy_fails 0 (length (subscribers (the_hub st_abc) "abc"))
            (accepted st_abc) = Some [4; s3; s2; s1]) as Ha by reflexivity.
  assert (subscribers (the_hub st_abc) "abc" !! 1 = Some s2) as Hi
    by reflexivity.
  assert (raised (outcome busy_fails 1) = true) as Hfail by reflexivity.
  destruct (broadcast_isolates_failure "abc" event_x busy_fails st_abc
              [4; s3; s2; s1] 1 s2 reachable_st_abc Ha Hi Hfail)
    as (_ & Hgone & Hall & Hlater).
  split; [exact Ha|]. split; [exact Hi|]. split; [exact Hfail|].
  split; [exact Hgone|]. split.
  - apply (Hall 2 s3). reflexivity.
  - apply (Hlater _ (rtc_refl _ _) event_x busy).
Defined.

(** [s1] under ["abc"], [s2] under ["xyz"]: a broadcast under ["abc"]
    does not send to [s2]. *)
Lemma broadcast_isolation_witness :
  "abc" ≠ "xyz" ∧
  s2 ∈ subscribers hub_pair "xyz" ∧
  ¬ attempted s2 (snd (broadcast "abc" event_x busy hub_pair)).
Proof.
  assert ("abc" ≠ "xyz") as Hne by done.
  assert (s2 ∈ subscribers hub_pair "xyz") as Hin by by_evaluation.
  split; [exact Hne|]. split; [exact Hin|].
  exact (proj1 (broadcast_isolation "abc" "xyz" event_x busy st_pair
                  reachable_st_pair Hne) s2 Hin).
Defined.

(** [s1] is registered under ["abc"]: a second [connect] of it, under
    any project, raises and registers nothing, its entry stays single,
    and a broadcast sends to it once. *)
Lemma connect_single_entry_witness :
  connect_ws "abc" s1 true st_abc = None ∧
  connect_ws "xyz" s1 true st_abc = None ∧
  occurrences s1 (subscribers hub_abc "abc") = 1 ∧
  occurrences s1 (target <$> snd (broadcast "abc" event_x busy hub_abc)) ≤ 1.
Proof.
  destruct (connect_single_entry (Event:=json) st_abc reachable_st_abc)
    as (_ & Hagain & _ & Honce).
  assert (s1 ∈ subscribers (the_hub st_abc) "abc") as Hin by by_evaluation.
  split; [exact (proj1 (Hagain "abc" "abc" s1 true Hin))|].
  split; [exact (proj1 (Hagain "abc" "xyz" s1 true Hin))|].
  split; [exact (proj2 (Hagain "abc" "abc" s1 true Hin))|].
  exact (Honce "abc" event_x busy s1).
Defined.

(** Two connections under two projects: no connection is listed under
    both, also after a third connection joined. *)
Lemma reachable_one_project_witness :
  one_project hub_pair ∧
  connect_ws "abc" s3 true st_pair
  = Some (mkState (foldl run_op hub_pair [OpConnect "abc" s3]) [s3; s2; s1]) ∧
  one_project (foldl run_op hub_pair [OpConnect "abc" s3]).
Proof.
  destruct (reachable_one_project (Event:=json) st_pair reachable_st_pair)
    as [Hone Hstep].
  assert (connect_ws "abc" s3 true st_pair
          = Some (mkState (foldl run_op hub_pair [OpConnect "abc" s3])
                    [s3; s2; s1])) as Hc by reflexivity.
  split; [exact Hone|]. split; [exact Hc|].
  exact (Hstep _ (step_connect "abc" s3 true st_pair _ Hc)).
Defined.

(** [s2] was never added, ["nowhere"] is no key of the dict, and [s1]
    is disconnected twice in a row. *)
Lemma disconnect_unregistered_witness :
  disconnect "abc" s2 hub_one = hub_one ∧
  disconnect "nowhere" s1 hub_one = hub_one ∧
  (s1 ∉ subscribers (disconnect "abc" s1 hub_one) "abc") ∧
  disconnect "abc" s1 (disconnect "abc" s1 hub_one)
  = disconnect "abc" s1 hub_one.
Proof.
  destruct (disconnect_unregistered (Event:=json) "abc" s2)
    as (_ & Habsent & _).
  destruct (disconnect_unregistered (Event:=json) "nowhere" s1)
    as (_ & Hnokey & _).
  destruct (disconnect_unregistered (Event:=json) "abc" s1)
    as (_ & _ & Htwice).
  split; [apply Habsent; by_evaluation|].
  split; [apply Hnokey; by_evaluation|].
  exact (Htwice st_one reachable_st_one).
Defined.

(** The address of [ada] has a stored user document, and her login
    fails: no identifier and no token come back. *)
Example login_known_address_fails :
  stored (email ada) (Some db_ada)
  = Some (mkDocument "65f0a1"
            (model_dump (mkUser "ada@example.com" None None ProviderEmail true))) ∧
  login any_email ada "65f0a2" "7c9e6679-7425-40de-944b-e07fc1f90ae7"
    (Some db_ada)
  = (ServerError, Some db_ada).
Proof. split; [by vm_compute|done]. Qed.

End concrete_runs.

(* ===================================================================== *)
(** * Further facts: broadcasts, handlers and the other endpoints *)
(* ===================================================================== *)

Section hub_runs_facts.
Import Json Datetime Hub Preview HubRuns.
Context {WebSocket : Type} `{!EqDecision WebSocket}.
Context {Event : Type}.
Implicit Types (self : PreviewHub WebSocket) (ws : WebSocket).
Implicit Types (l : list WebSocket) (p q : string) (event : Event).
Implicit Types (e : env WebSocket).

Lemma list_remove_app ws pre rest :
  ws ∉ pre → list_remove ws (pre ++ ws :: rest) = Some (pre ++ rest).
Proof.
  induction pre as [|y pre IH]; intros Hin; simpl.
  - by rewrite decide_True.
  - apply not_elem_of_cons in Hin as [Hne Hin].
    rewrite decide_False by done. by rewrite IH.
Qed.

Lemma list_remove_filter_ne ws l l' :
  list_remove ws l = Some l' →
  filter (λ x, x ≠ ws) l' = filter (λ x, x ≠ ws) l.
Proof.
  revert l'. induction l as [|y l IH]; intros l'; simpl; [done|].
  destruct (decide (ws = y)) as [->|Hne].
  - intros [= <-]. by rewrite filter_cons_False by (intros ?; done).
  - destruct (list_remove ws l) as [l0|] eqn:E; simpl; [|done].
    intros [= <-]. rewrite !filter_cons_True by done. f_equal. by apply IH.
Qed.

Lemma occurrences_sublist ws l l' :
  sublist l' l → occurrences ws l' ≤ occurrences ws l.
Proof.
  unfold occurrences. induction 1 as [|x l1 l2 Hs IH|x l1 l2 Hs IH]; [done|..].
  - destruct (decide (x = ws)) as [->|Hne].
    + rewrite !filter_cons_True by done. simpl. lia.
    + by rewrite !filter_cons_False.
  - destruct (decide (x = ws)) as [->|Hne].
    + rewrite filter_cons_True by done. simpl. lia.
    + by rewrite filter_cons_False.
Qed.

Lemma broadcast_from_reliable p event e snap :
  quiet e → reliable e →
  ∀ i self,
    broadcast_from p event e i snap self
    = (self, (λ ws, Attempt ws event SendOk) <$> snap).
Proof.
  intros Hq Hr. induction snap as [|ws rest IH]; intros i self; [done|].
  rewrite broadcast_from_cons. cbv zeta. rewrite (Hq i), (Hr i).
  cbn [foldl raised]. by rewrite IH.
Qed.

(** X1. A broadcast in which every send returns, with no other task at
    work, leaves the hub as it was and logs one delivery per listed
    connection. *)
Theorem broadcast_reliable_unchanged p event e self :
  quiet e → reliable e →
  broadcast p event e self
  = (self, (λ ws, Attempt ws event SendOk) <$> subscribers self p).
Proof.
  intros Hq Hr. unfold broadcast. generalize 0 as i.
  induction (subscribers self p) as [|ws rest IH]; intros i; [done|].
  rewrite broadcast_from_cons. cbv zeta. rewrite (Hq i), (Hr i).
  cbn [foldl raised]. rewrite IH. done.
Qed.

Lemma broadcast_from_survivors p event e snap :
  quiet e →
  ∀ i self pre,
    subscribers self p = pre ++ snap → NoDup (pre ++ snap) →
    subscribers (fst (broadcast_from p event e i snap self)) p
    = pre ++ survivors_from (outcome e) i snap.
Proof.
  intros Hq. induction snap as [|ws rest IH]; intros i self pre Hl Hnd.
  - done.
  - rewrite broadcast_from_cons. cbv zeta. cbn [fst survivors_from].
    rewrite (Hq i). cbn [foldl].
    destruct (raised (outcome e i)).
    + assert (ws ∉ pre) as Hpre.
      { apply NoDup_app in Hnd as (_ & Hdisj & _). intros Hin.
        apply (Hdisj ws Hin). apply list_elem_of_here. }
      assert (ws ∈ subscribers self p) as Hin.
      { rewrite Hl. apply elem_of_app. right. apply list_elem_of_here. }
      pose proof (subscribers_disconnect p ws self Hin) as Hrm.
      rewrite Hl, list_remove_app in Hrm by done. injection Hrm as Hrm.
      apply IH; [done|].
      apply NoDup_app in Hnd as (Hn1 & Hdisj & Hn2).
      apply NoDup_cons in Hn2 as [_ Hn2].
      apply NoDup_app. split; [done|]. split; [|done].
      intros x Hx Hx'. apply (Hdisj x Hx). by apply list_elem_of_further.
    + rewrite (IH (S i) self (pre ++ [ws])).
      * by rewrite <- app_assoc.
      * by rewrite <- app_assoc.
      * by rewrite <- app_assoc.
Qed.

(** X2. After a broadcast the project lists exactly the targets whose
    send returned, in their order. *)
Theorem broadcast_survivors p event e self :
  quiet e → NoDup (subscribers self p) →
  subscribers (fst (broadcast p event e self)) p
  = survivors (outcome e) (subscribers self p).
Proof.
  intros Hq Hnd. unfold broadcast, survivors.
  by rewrite (broadcast_from_survivors p event e _ Hq 0 self []).
Qed.

Lemma disconnect_dom p ws self :
  dom (connections (disconnect p ws self)) = dom (connections self).
Proof.
  unfold disconnect. destruct (connections self !! p) as [l|] eqn:E; [|done].
  destruct (decide (ws ∈ l)); [|done].
  destruct (list_remove ws l); [|done]. simpl.
  rewrite dom_insert_L. apply elem_of_dom_2 in E.
  apply subseteq_union_1_L. by apply singleton_subseteq_l.
Qed.

Lemma run_op_dom self o :
  dom (connections self) ⊆ dom (connections (run_op self o)).
Proof.
  destruct o as [q x|q x]; simpl.
  - rewrite dom_insert_L. apply union_subseteq_r.
  - by rewrite disconnect_dom.
Qed.

Lemma foldl_run_op_dom ops self :
  dom (connections self) ⊆ dom (connections (foldl run_op self ops)).
Proof.
  revert self. induction ops as [|o ops IH]; intros self; [done|].
  simpl. etrans; [apply run_op_dom|apply IH].
Qed.

Lemma broadcast_from_dom p event e i snap self :
  dom (connections self)
  ⊆ dom (connections (fst (broadcast_from p event e i snap self))).
Proof.
  revert i self. induction snap as [|ws rest IH]; intros i self; [done|].
  rewrite broadcast_from_cons. cbv zeta. cbn [fst].
  etrans; [|apply IH]. destruct (raised (outcome e i)).
  - rewrite disconnect_dom. apply foldl_run_op_dom.
  - apply foldl_run_op_dom.
Qed.

Lemma broadcast_from_dom_quiet p event e i snap self :
  quiet e →
  dom (connections (fst (broadcast_from p event e i snap self)))
  = dom (connections self).
Proof.
  intros Hq. revert i self.
  induction snap as [|ws rest IH]; intros i self; [done|].
  rewrite broadcast_from_cons. cbv zeta. cbn [fst]. rewrite (Hq i).
  cbn [foldl]. rewrite IH. destruct (raised (outcome e i)); [|done].
  apply disconnect_dom.
Qed.

(** X3. The hub never drops a project identifier.  [connect] adds the
    key, [disconnect] keeps the key set, even when the last subscriber
    leaves and the list becomes empty, and [broadcast] adds or removes no
    key itself. *)
Theorem hub_keys_persist p ws event e self :
  dom (connections (disconnect p ws self)) = dom (connections self) ∧
  (subscribers self p = [ws] →
   connections (disconnect p ws self) !! p = Some []) ∧
  (∀ self', connect p ws true self = Some self' →
            dom (connections self') = {[p]} ∪ dom (connections self)) ∧
  dom (connections self)
  ⊆ dom (connections (fst (broadcast p event e self))) ∧
  (quiet e →
   dom (connections (fst (broadcast p event e self)))
   = dom (connections self)).
Proof.
  split; [apply disconnect_dom|]. split; [|split; [|split]].
  - intros Hl. unfold subscribers in Hl. unfold disconnect.
    destruct (connections self !! p) as [l|]; simpl in Hl; [|done].
    subst l. rewrite decide_True by apply list_elem_of_here.
    simpl. rewrite decide_True by done. simpl. by rewrite lookup_insert_eq.
  - intros self' [= <-]. simpl. by rewrite dom_insert_L.
  - apply broadcast_from_dom.
  - intros Hq. by apply broadcast_from_dom_quiet.
Qed.

Lemma connect_then_disconnect p ws self self' :
  ws ∉ subscribers self p →
  connect p ws true self = Some self' →
  ∀ q, subscribers (disconnect p ws self') q = subscribers self q.
Proof.
  intros Hnew Hc q.
  apply connect_Some in Hc as (_ & Hp & Hother).
  destruct (decide (q = p)) as [->|Hq].
  - assert (ws ∈ subscribers self' p) as Hin.
    { rewrite Hp. apply elem_of_app. right. apply list_elem_of_here. }
    pose proof (subscribers_disconnect p ws self' Hin) as Hrm.
    rewrite Hp, list_remove_app in Hrm by done.
    injection Hrm as Hrm. by rewrite app_nil_r in Hrm.
  - rewrite subscribers_disconnect_ne by done. by apply Hother.
Qed.

(** X4. [connect] followed by [disconnect] of a connection the project
    did not list gives back every subscriber list; the project's key is
    then present, and when it was present before the hub is the same
    again. *)
Theorem connect_disconnect_roundtrip p ws self self' :
  ws ∉ subscribers self p →
  connect p ws true self = Some self' →
  (∀ q, subscribers (disconnect p ws self') q = subscribers self q) ∧
  connections (disconnect p ws self') !! p = Some (subscribers self p) ∧
  (is_Some (connections self !! p) → disconnect p ws self' = self).
Proof.
  intros Hnew [= <-].
  assert (list_remove ws (subscribers self p ++ [ws])
          = Some (subscribers self p)) as Hrm.
  { rewrite list_remove_app by done. by rewrite app_nil_r. }
  assert (disconnect p ws
            (mkHub (<[p:=subscribers self p ++ [ws]]> (connections self)))
          = mkHub (<[p:=subscribers self p]> (connections self))) as Hd.
  { unfold disconnect. simpl. rewrite lookup_insert_eq.
    rewrite decide_True
      by (apply elem_of_app; right; apply list_elem_of_here).
    rewrite Hrm. by rewrite insert_insert_eq. }
  rewrite Hd. split; [|split].
  - intros q. unfold subscribers at 1. simpl.
    destruct (decide (q = p)) as [->|Hq].
    + by rewrite lookup_insert_eq.
    + by rewrite lookup_insert_ne.
  - simpl. by rewrite lookup_insert_eq.
  - intros [l Hl]. destruct self as [m]. simpl in *. f_equal.
    unfold subscribers. simpl. rewrite Hl. simpl. by apply insert_id.
Qed.

(** X5. [disconnect] of one connection leaves every other connection
    where it was: in every project the entries that are not [ws] are the
    same, in the same order. *)
Theorem disconnect_keeps_others p q ws self :
  filter (λ x, x ≠ ws) (subscribers (disconnect p ws self) q)
  = filter (λ x, x ≠ ws) (subscribers self q).
Proof.
  destruct (decide (q = p)) as [->|Hq].
  - destruct (decide (ws ∈ subscribers self p)) as [Hin|Hin].
    + eapply list_remove_filter_ne. by apply subscribers_disconnect.
    + by rewrite disconnect_absent.
  - by rewrite subscribers_disconnect_ne.
Qed.

(** X6. Which exception a send raised makes no difference to the hub:
    two runs whose sends raise at the same positions, with the same
    operations of other tasks, end in the same hub. *)
Theorem broadcast_exception_kind p event e e' self :
  (∀ i, raised (outcome e i) = raised (outcome e' i)) →
  (∀ i, others e i = others e' i) →
  fst (broadcast p event e self) = fst (broadcast p event e' self).
Proof.
  intros Hr Ho. unfold broadcast. generalize 0 as i.
  generalize (subscribers self p) as snap. intros snap. revert self.
  induction snap as [|ws rest IH]; intros self i; [done|].
  rewrite !broadcast_from_cons. cbv zeta. cbn [fst].
  rewrite (Hr i), (Ho i). apply IH.
Qed.

End hub_runs_facts.

Section handler_facts.
Import Json Datetime Hub Preview HubRuns.
Context {WebSocket : Type} `{!EqDecision WebSocket}.
Implicit Types (hub : PreviewHub WebSocket) (ws sender : WebSocket).
Implicit Types (p q : string) (m : inbound WebSocket).
Implicit Types (e : env WebSocket).

Lemma run_op_occurrences p ws hub o :
  reconnects p ws o = false →
  occurrences ws (subscribers (run_op hub o) p)
  ≤ occurrences ws (subscribers hub p).
Proof.
  destruct o as [q x|q x]; simpl; intros Hr.
  - apply bool_decide_eq_false in Hr.
    unfold subscribers at 1. simpl.
    destruct (decide (q = p)) as [->|Hq].
    + rewrite lookup_insert_eq. simpl. unfold occurrences.
      rewrite filter_app, length_app.
      rewrite filter_cons_False by (intros ->; by apply Hr).
      simpl. lia.
    + rewrite lookup_insert_ne by done. done.
  - apply occurrences_sublist, disconnect_sublist.
Qed.

Lemma foldl_run_op_occurrences p ws ops hub :
  leave_alone p ws ops →
  occurrences ws (subscribers (foldl run_op hub ops) p)
  ≤ occurrences ws (subscribers hub p).
Proof.
  intros Hops. revert hub.
  induction Hops as [|o ops Ho _ IH]; intros hub; [done|].
  simpl. etrans; [apply IH|]. by apply run_op_occurrences.
Qed.

Lemma broadcast_from_occurrences {Event : Type} p ws (event : Event) e
    i snap hub :
  (∀ i, leave_alone p ws (others e i)) →
  occurrences ws (subscribers (fst (broadcast_from p event e i snap hub)) p)
  ≤ occurrences ws (subscribers hub p).
Proof.
  intros He. revert i hub.
  induction snap as [|x rest IH]; intros i hub; [done|].
  rewrite broadcast_from_cons. cbv zeta. cbn [fst].
  etrans; [apply IH|].
  destruct (raised (outcome e i)).
  - etrans; [apply occurrences_sublist, disconnect_sublist|].
    by apply foldl_run_op_occurrences.
  - by apply foldl_run_op_occurrences.
Qed.

Lemma receive_loop_occurrences p ws msgs hub :
  Forall (turn_leaves_alone p ws) msgs →
  occurrences ws (subscribers (fst (receive_loop p msgs hub)) p)
  ≤ occurrences ws (subscribers hub p).
Proof.
  intros Hmsgs. revert hub.
  induction Hmsgs as [|m msgs [Hm He] _ IH]; intros hub; [done|].
  cbn [receive_loop].
  destruct (on_message p m (foldl run_op hub (meanwhile m)))
    as [hub1 log1] eqn:E1.
  specialize (IH hub1).
  destruct (receive_loop p msgs hub1) as [hub2 log2]. cbn [fst] in *.
  etrans; [apply IH|].
  replace hub1 with (fst (on_message p m (foldl run_op hub (meanwhile m))))
    by by rewrite E1.
  etrans; [by apply broadcast_from_occurrences|].
  by apply foldl_run_op_occurrences.
Qed.

(** X7. A handler that ends because [receive_json] raised leaves
    nothing behind: when its connection was not listed under the project
    before and no other task connects it there meanwhile, the connection
    is not listed once the handler has ended, whatever was received,
    whichever sends raised and whatever else other tasks did.  A handler
    ended by a cancellation is not cleaned up: cancelled while it waits
    for its first message, with no other task at work, it leaves its
    connection listed. *)
Theorem preview_ws_cleans_up sender p msgs last hub :
  sender ∉ subscribers hub p →
  Forall (turn_leaves_alone p sender) msgs →
  leave_alone p sender last →
  (∃ hub' log,
     preview_ws sender p true msgs (ReceiveRaised last) hub
     = Some (hub', log) ∧
     sender ∉ subscribers hub' p) ∧
  (∃ hub',
     preview_ws sender p true [] (ReceiveCancelled []) hub
     = Some (hub', []) ∧
     subscribers hub' p = subscribers hub p ++ [sender]).
Proof.
  intros Hnew Hmsgs Hlast. unfold preview_ws.
  destruct (connect_accepted p sender hub) as (hub1 & Hc & Hp & _).
  rewrite Hc. cbn [mbind option_bind]. split; [|by exists hub1].
  pose proof (receive_loop_occurrences p sender msgs hub1 Hmsgs) as Hocc.
  destruct (receive_loop p msgs hub1) as [hub2 log]. cbn [fst] in Hocc.
  do 2 eexists. split; [reflexivity|].
  pose proof (foldl_run_op_occurrences p sender last hub2 Hlast) as Hocc'.
  assert (occurrences sender (subscribers hub1 p) = 1) as H1.
  { rewrite Hp. unfold occurrences. rewrite filter_app, length_app.
    apply occurrences_0 in Hnew. unfold occurrences in Hnew. rewrite Hnew.
    by rewrite filter_cons_True. }
  set (hub3 := foldl run_op hub2 last) in *.
  destruct (decide (sender ∈ subscribers hub3 p)) as [Hin|Hin].
  - apply occurrences_0.
    pose proof (list_remove_occurrences _ _ _
                  (subscribers_disconnect p sender hub3 Hin)). lia.
  - by rewrite disconnect_absent.
Qed.

Lemma receive_loop_calm p msgs hub :
  Forall calm msgs →
  receive_loop p msgs hub
  = (hub,
     msgs ≫= λ m,
       (λ ws, Attempt ws (envelope (payload m) (clock m)) SendOk)
         <$> subscribers hub p).
Proof.
  intros Hmsgs. induction Hmsgs as [|m msgs (Hm & Hq & Hr) _ IH]; [done|].
  cbn [receive_loop]. rewrite Hm. cbn [foldl]. unfold on_message, broadcast.
  rewrite broadcast_from_reliable by done. by rewrite IH.
Qed.

Lemma broadcast_cancelled_calm p event e k hub :
  quiet e → reliable e →
  broadcast_cancelled p event e k hub
  = (hub, (λ ws, Attempt ws event SendOk) <$> take k (subscribers hub p)).
Proof.
  intros Hq Hr. unfold broadcast_cancelled. cbv zeta.
  rewrite broadcast_from_reliable by done.
  destruct (subscribers hub p !! k); [|done]. by rewrite (Hq k).
Qed.

(** X8. A calm session: the connection was not listed before, no other
    task touches the hub and every send returns.  Each received message
    is delivered, in the order received, to the subscribers listed
    before followed by the sender itself.  When the handler ends because
    [receive_json] raised, every subscriber list is afterwards as it was
    before; when it ends by a cancellation, while it waits for a message
    or during a send, its connection stays at the end of the project's
    list and nothing else has changed. *)
Theorem preview_ws_calm sender p msgs hub :
  sender ∉ subscribers hub p →
  Forall calm msgs →
  (∃ hub',
     preview_ws sender p true msgs (ReceiveRaised []) hub
     = Some (hub',
             msgs ≫= λ m,
               (λ ws, Attempt ws (envelope (payload m) (clock m)) SendOk)
                 <$> (subscribers hub p ++ [sender])) ∧
     ∀ q, subscribers hub' q = subscribers hub q) ∧
  (∃ hub',
     preview_ws sender p true msgs (ReceiveCancelled []) hub
     = Some (hub',
             msgs ≫= λ m,
               (λ ws, Attempt ws (envelope (payload m) (clock m)) SendOk)
                 <$> (subscribers hub p ++ [sender])) ∧
     subscribers hub' p = subscribers hub p ++ [sender] ∧
     ∀ q, q ≠ p → subscribers hub' q = subscribers hub q) ∧
  (∀ m k, calm m →
     ∃ hub',
       preview_ws sender p true msgs (SendCancelled m k) hub
       = Some (hub',
               (msgs ≫= λ m,
                  (λ ws, Attempt ws (envelope (payload m) (clock m)) SendOk)
                    <$> (subscribers hub p ++ [sender]))
               ++ ((λ ws, Attempt ws (envelope (payload m) (clock m)) SendOk)
                     <$> take k (subscribers hub p ++ [sender]))) ∧
       subscribers hub' p = subscribers hub p ++ [sender] ∧
       ∀ q, q ≠ p → subscribers hub' q = subscribers hub q).
Proof.
  intros Hnew Hmsgs. unfold preview_ws.
  destruct (connect_accepted p sender hub) as (hub1 & Hc & Hp & Hother).
  rewrite Hc. cbn [mbind option_bind].
  rewrite receive_loop_calm by done. cbn [foldl]. rewrite Hp.
  split; [|split].
  - eexists. split; [reflexivity|].
    by apply (connect_then_disconnect p sender hub hub1).
  - by exists hub1.
  - intros m k (Hm & Hq & Hr). rewrite Hm. cbn [foldl].
    rewrite broadcast_cancelled_calm by done. rewrite Hp. by exists hub1.
Qed.

Lemma receive_loop_sent p msgs hub a :
  a ∈ snd (receive_loop p msgs hub) →
  ∃ m, m ∈ msgs ∧ sent a = envelope (payload m) (clock m).
Proof.
  revert hub. induction msgs as [|m msgs IH]; intros hub Ha.
  - by apply not_elem_of_nil in Ha.
  - cbn [receive_loop] in Ha.
    destruct (on_message p m (foldl run_op hub (meanwhile m)))
      as [h1 l1] eqn:E1.
    specialize (IH h1).
    destruct (receive_loop p msgs h1) as [h2 l2]. cbn [snd] in *.
    apply elem_of_app in Ha as [Ha|Ha].
    + exists m. split; [apply list_elem_of_here|].
      replace l1 with (snd (on_message p m (foldl run_op hub (meanwhile m))))
        in Ha by by rewrite E1.
      rewrite on_message_log in Ha.
      by apply elem_of_lookup_imap in Ha as (i & ws & -> & _).
    + destruct (IH Ha) as (m' & Hm' & Hs).
      exists m'. split; [by apply list_elem_of_further|done].
Qed.

Lemma broadcast_cancelled_sent p event e k hub a :
  a ∈ snd (broadcast_cancelled p event e k hub) → sent a = event.
Proof.
  unfold broadcast_cancelled. cbv zeta.
  pose proof (broadcast_from_log p event e 0 (take k (subscribers hub p)) hub)
    as Hlog.
  destruct (broadcast_from p event e 0 (take k (subscribers hub p)) hub)
    as [hub1 log]. cbn [snd] in Hlog. subst log.
  intros Ha.
  assert (a ∈ imap (λ i ws, Attempt ws event (outcome e (0 + i)))
                (take k (subscribers hub p))) as Ha'
    by by destruct (subscribers hub p !! k).
  by apply elem_of_lookup_imap in Ha' as (i & ws & -> & _).
Qed.

(** X9. Whatever a handler sends is the envelope of a message it
    received: under any environment, and however the handler ends, every
    entry of its log carries [envelope (payload m) (clock m)] for one of
    the received [m]. *)
Theorem preview_ws_sends_envelopes sender p acc msgs fin hub hub' log a :
  preview_ws sender p acc msgs fin hub = Some (hub', log) →
  a ∈ log →
  ∃ m, m ∈ received msgs fin ∧ sent a = envelope (payload m) (clock m).
Proof.
  unfold preview_ws. destruct (connect p sender acc hub) as [hub1|]; [|done].
  cbn [mbind option_bind].
  pose proof (receive_loop_sent p msgs hub1 a) as Hloop.
  destruct (receive_loop p msgs hub1) as [hub2 log']. cbn [snd] in Hloop.
  destruct fin as [last|last|m k]; cbn [received].
  - intros [= _ <-]. done.
  - intros [= _ <-]. done.
  - pose proof (broadcast_cancelled_sent p (envelope (payload m) (clock m))
                  (sends m) k (foldl run_op hub2 (meanwhile m)) a) as Hcut.
    destruct (broadcast_cancelled p (envelope (payload m) (clock m))
                (sends m) k (foldl run_op hub2 (meanwhile m)))
      as [hub3 log3]. cbn [snd] in Hcut.
    intros [= _ <-] [Ha|Ha]%elem_of_app.
    + destruct (Hloop Ha) as (m' & Hm' & Hs). exists m'.
      split; [|done]. apply elem_of_app. by left.
    + exists m. split; [|by apply Hcut].
      apply elem_of_app. right. apply list_elem_of_here.
Qed.

(** X10. The next message goes to those the last one reached.  A
    handler's loop receives [m1] and then [m2] in a project that lists
    each connection once, with no other task at work before and during
    the broadcast of [m1].  When no other task touches the hub while
    [m2] is awaited, [m2] is sent exactly to the connections whose send
    of [m1] returned; and whatever other tasks do while [m2] is awaited,
    short of connecting it again, a connection whose send of [m1] raised
    (the sender's own included) is not sent [m2]. *)
Theorem on_message_after_failure p m1 m2 hub :
  NoDup (subscribers hub p) → meanwhile m1 = [] → quiet (sends m1) →
  ∃ log2,
    snd (receive_loop p [m1; m2] hub) = snd (on_message p m1 hub) ++ log2 ∧
    (∀ a, a ∈ log2 → sent a = envelope (payload m2) (clock m2)) ∧
    (meanwhile m2 = [] →
     target <$> log2 = survivors (outcome (sends m1)) (subscribers hub p)) ∧
    ∀ i ws, subscribers hub p !! i = Some ws →
            raised (outcome (sends m1) i) = true →
            leave_alone p ws (meanwhile m2) →
            ¬ attempted ws log2.
Proof.
  intros Hnd Hm1 Hq. cbn [receive_loop]. rewrite Hm1. cbn [foldl].
  assert (subscribers (fst (on_message p m1 hub)) p
          = survivors (outcome (sends m1)) (subscribers hub p)) as Hsurv.
  { unfold on_message, broadcast, survivors.
    by rewrite (broadcast_from_survivors p _ (sends m1) _ Hq 0 hub []). }
  assert (∀ i ws, subscribers hub p !! i = Some ws →
                  raised (outcome (sends m1) i) = true →
                  ws ∉ subscribers (fst (on_message p m1 hub)) p) as Hgone.
  { intros i ws Hi Hfail. unfold on_message, broadcast.
    apply (broadcast_from_removes p _ (sends m1) 0 _ hub Hq Hnd i ws Hi Hfail). }
  destruct (on_message p m1 hub) as [hub1 log1]. cbn [fst snd] in *.
  exists (snd (on_message p m2 (foldl run_op hub1 (meanwhile m2)))).
  destruct (on_message p m2 (foldl run_op hub1 (meanwhile m2)))
    as [hub2 log2] eqn:E2. cbn [snd].
  assert (log2 = snd (on_message p m2 (foldl run_op hub1 (meanwhile m2))))
    as Hlog2 by by rewrite E2.
  split; [by rewrite app_nil_r|]. split; [|split].
  - intros a Ha. rewrite Hlog2, on_message_log in Ha.
    by apply elem_of_lookup_imap in Ha as (i & ws & -> & _).
  - intros Hm2. rewrite Hlog2, Hm2. cbn [foldl]. unfold on_message.
    by rewrite broadcast_targets.
  - intros i ws Hi Hfail Halone. unfold attempted.
    rewrite Hlog2. unfold on_message. rewrite broadcast_targets.
    apply occurrences_0.
    pose proof (foldl_run_op_occurrences p ws (meanwhile m2) hub1 Halone)
      as Hocc.
    pose proof (Hgone i ws Hi Hfail) as H0. apply occurrences_0 in H0. lia.
Qed.

(** X11. The envelope can be taken apart again: two envelopes are equal
    only if they carry the same payload and, for well-formed clock
    readings, were stamped at the same time. *)
Theorem envelope_inj data1 data2 now1 now2 :
  valid now1 = true → valid now2 = true →
  envelope data1 now1 = envelope data2 now2 →
  data1 = data2 ∧ now1 = now2.
Proof.
  intros Hv1 Hv2 Heq. split.
  - apply (f_equal (λ j, match j with
                         | JObj [_; (_, d); _] => Some d
                         | _ => None
                         end)) in Heq.
    change (Some data1 = Some data2) in Heq. congruence.
  - apply (f_equal (λ j, match j with
                         | JObj [_; _; (_, JStr t)] => t
                         | _ => EmptyString
                         end)) in Heq.
    change (isoformat now1 = isoformat now2) in Heq.
    apply parse_isoformat in Hv1, Hv2. rewrite Heq in Hv1. congruence.
Qed.

End handler_facts.

Section path_facts.
Import Json Auth Api.

Lemma append_assoc a b c : (a +:+ b) +:+ c = a +:+ (b +:+ c).
Proof.
  induction a as [|x a IH]; [done|].
  change ((String x a +:+ b) +:+ c) with (String x ((a +:+ b) +:+ c)).
  by rewrite IH.
Qed.

Lemma has_slash_app a b : has_slash (a +:+ b) = has_slash a || has_slash b.
Proof.
  induction a as [|c a IH]; [done|].
  change (String c a +:+ b) with (String c (a +:+ b)). cbn [has_slash].
  by destruct (decide (c = "/"%char)).
Qed.

Lemma basename_no_slash s : has_slash s = false → basename s = s.
Proof. destruct s as [|c r]; [done|]. intros H. cbn [basename]. by rewrite H. Qed.

Lemma basename_after_slash a b :
  basename (a +:+ String "/" b) = basename b.
Proof.
  induction a as [|c a IH].
  - change ("" +:+ String "/" b) with (String "/" b). cbn [basename].
    cbn [has_slash]. by rewrite decide_True.
  - change (String c a +:+ String "/" b) with (String c (a +:+ String "/" b)).
    cbn [basename]. rewrite <- IH.
    assert (has_slash (String c (a +:+ String "/" b)) = true) as ->; [|done].
    cbn [has_slash]. destruct (decide (c = "/"%char)); [done|].
    rewrite has_slash_app. cbn [has_slash]. rewrite decide_True by done.
    apply orb_true_r.
Qed.

Lemma ends_with_slash_inv a :
  ends_with_slash a = true → ∃ a0, a = a0 +:+ "/".
Proof.
  induction a as [|c a IH]; [done|]. destruct a as [|c' a'].
  - cbn [ends_with_slash]. intros ->%bool_decide_eq_true. by exists "".
  - intros H. destruct (IH H) as [a0 Ha0]. exists (String c a0).
    change (String c a0 +:+ "/") with (String c (a0 +:+ "/")). by rewrite <- Ha0.
Qed.

Lemma no_slash_not_absolute x : has_slash x = false → starts_with_slash x = false.
Proof.
  destruct x as [|c r]; [done|]. cbn [has_slash starts_with_slash].
  destruct (decide (c = "/"%char)); [done|]. intros _. by apply bool_decide_eq_false.
Qed.

(** The last component of a joined path is the name that was joined,
    when the name has no ['/']. *)
Lemma basename_join d x : has_slash x = false → basename (join d x) = x.
Proof.
  intros Hx. unfold join. rewrite no_slash_not_absolute by done.
  destruct (bool_decide (d = "")) eqn:Hd; simpl.
  - apply bool_decide_eq_true in Hd as ->. by apply basename_no_slash.
  - destruct (ends_with_slash d) eqn:He.
    + apply ends_with_slash_inv in He as [d0 ->].
      rewrite append_assoc.
      change ("/" +:+ x) with (String "/" x).
      rewrite basename_after_slash. by apply basename_no_slash.
    + change ("/" +:+ x) with (String "/" x).
      rewrite basename_after_slash. by apply basename_no_slash.
Qed.

Lemma hex_char_not_slash d : (d < 16)%N → hex_char d ≠ "/"%char.
Proof.
  intros Hd Heq. apply (f_equal N_of_ascii) in Heq. unfold hex_char in Heq.
  destruct (N.ltb_spec d 10); rewrite N_ascii_embedding in Heq by lia;
    simpl in Heq; lia.
Qed.

Lemma has_slash_hex_pad w n : has_slash (hex_pad w n) = false.
Proof.
  induction w as [|w IH]; [done|]. cbn [hex_pad has_slash].
  rewrite decide_False; [done|].
  apply hex_char_not_slash, N.mod_upper_bound. lia.
Qed.

(** The text of a UUID holds no ['/']. *)
Lemma has_slash_uuid_str n : has_slash (uuid_str n) = false.
Proof.
  unfold uuid_str. rewrite !has_slash_app, !has_slash_hex_pad. done.
Qed.

End path_facts.

Section api_facts.
Import Json Auth Api.
Implicit Types (d : Database) (db : option Database) (disk : Disk).

(** *** The store *)

Lemma create_document_Some name fields oid d :
  ∃ d', create_document name fields oid (Some d) = Some (oid, d') ∧
        collection name d' = collection name d ++ [mkDocument oid fields] ∧
        ∀ other, other ≠ name → collection other d' = collection other d.
Proof.
  eexists. split; [done|]. split.
  - unfold collection at 1. simpl. by rewrite lookup_insert_eq.
  - intros other Hne. unfold collection at 1. simpl.
    by rewrite lookup_insert_ne.
Qed.

(** *** Uploads *)

(** X12. What was uploaded can be fetched.  When the client's file name
    has no ['/'] and the file could be opened for writing, the name after
    [/uploads/] in the returned URL makes [get_upload] stream back
    exactly the uploaded bytes; with a known [kind] and the store
    available the reply carries the new asset's id and that URL, and
    one asset document is stored. *)
Theorem upload_then_download cwd user_id kind file f uuid oid disk db :
  filename file = Some f → has_slash f = false →
  get_upload cwd (uuid_str uuid +:+ "_" +:+ f)
    (snd (fst (upload_file cwd user_id kind file uuid true oid disk db)))
  = Stream (content file) ∧
  ∀ k d, parse_kind kind = Some k → db = Some d →
    ∃ d',
      upload_file cwd user_id kind file uuid true oid disk db
      = (Replied (JObj [("asset_id", JStr oid);
                        ("url", JStr ("/uploads/" +:+ uuid_str uuid +:+ "_" +:+ f))]),
         mkDisk (<[join (UPLOAD_DIR cwd) (uuid_str uuid +:+ "_" +:+ f)
                   := File (content file)]> (entries disk)),
         Some d') ∧
      collection "mediaasset" d'
      = collection "mediaasset" d
        ++ [mkDocument oid
              (dump_MediaAsset
                 (mkMediaAsset user_id k f
                    ("/uploads/" +:+ uuid_str uuid +:+ "_" +:+ f)))].
Proof.
  intros Hf Hslash.
  assert (has_slash (uuid_str uuid +:+ "_" +:+ f) = false) as Hname.
  { rewrite !has_slash_app, has_slash_uuid_str, Hslash. done. }
  unfold upload_file. rewrite Hf. cbn [format_filename].
  rewrite basename_join by done. split.
  - unfold get_upload.
    destruct (new_MediaAsset user_id kind (Some f) _) as [asset|]; simpl.
    + destruct (create_document _ _ _ _) as [[? ?]|]; simpl;
        by rewrite lookup_insert_eq.
    + by rewrite lookup_insert_eq.
  - intros k d Hk ->. unfold new_MediaAsset. rewrite Hk. cbn [mbind option_bind].
    destruct (create_document_Some "mediaasset"
                (dump_MediaAsset
                   (mkMediaAsset user_id k f
                      ("/uploads/" +:+ uuid_str uuid +:+ "_" +:+ f)))
                oid d) as (d' & -> & Hcoll & _).
    by exists d'.
Qed.

(** X13. The file is written before the request is checked.  An upload
    that then fails, for a [kind] outside the three allowed, a file
    without a name, or no store, has already put its bytes on disk and
    stores no asset document; only when the file cannot be opened is
    nothing written. *)
Theorem upload_rejected_keeps_file cwd user_id kind file uuid oid disk db :
  parse_kind kind = None ∨ filename file = None ∨ db = None →
  upload_file cwd user_id kind file uuid true oid disk db
  = (Raised,
     mkDisk (<[join (UPLOAD_DIR cwd)
                 (uuid_str uuid +:+ "_" +:+ format_filename (filename file))
               := File (content file)]> (entries disk)),
     db) ∧
  upload_file cwd user_id kind file uuid false oid disk db = (Raised, disk, db).
Proof.
  intros Hbad. split; [|done]. unfold upload_file, new_MediaAsset.
  destruct Hbad as [-> | [-> | ->]]; [done| |].
  - by destruct (parse_kind kind).
  - destruct (parse_kind kind); [|done]. by destruct (filename file).
Qed.

(** *** The health check *)

(** X14. The health check always answers, with the same six keys in the
    same order, and [connection_status] is ["Not Connected"] in every
    answer, also when the collections could be listed. *)
Theorem test_database_never_connected (db : option listing)
    (database_url database_name : option string) :
  keys (test_database db database_url database_name)
  = ["backend"; "database"; "database_url"; "database_name";
     "connection_status"; "collections"] ∧
  get "connection_status" (test_database db database_url database_name)
  = Some (JStr "Not Connected") ∧
  get "backend" (test_database db database_url database_name)
  = Some (JStr "✅ Running").
Proof. by destruct db as [[names|message]|]. Qed.





(** *** Canned answers *)

(** X16. [ai_transcribe] never answers with an empty language: a request
    without a language, or with the empty string, gets ["en"], any other
    language comes back as sent. *)
Theorem ai_transcribe_language req :
  ∃ l, get "language" (ai_transcribe req) = Some (JStr l) ∧
       l ≠ "" ∧
       match transcribe_language req with
       | Some s => if decide (s = "") then l = "en" else l = s
       | None => l = "en"
       end.
Proof.
  eexists. split; [done|]. unfold or_else.
  destruct (transcribe_language req) as [s|]; [|done].
  by destruct (decide (s = "")).
Qed.

(** *** Projects and jobs *)

Lemma get_documents_after_create name k v limit fields oid d :
  ∃ d', create_document name fields oid (Some d) = Some (oid, d') ∧
    get_documents name k v limit (Some d')
    = Some (take limit
              (filter (λ x, field_is k v x = true) (collection name d)
               ++ (if field_is k v (mkDocument oid fields)
                   then [mkDocument oid fields] else []))).
Proof.
  destruct (create_document_Some name fields oid d) as (d' & Hc & Hcoll & _).
  exists d'. split; [done|]. unfold get_documents. cbn [mbind option_bind].
  rewrite Hcoll, filter_app. do 3 f_equal.
  destruct (field_is k v (mkDocument oid fields)) eqn:E.
  - by rewrite filter_cons_True, filter_nil.
  - rewrite filter_cons_False, filter_nil; [done|]. by rewrite E.
Qed.

Lemma template_ratios_eq : template_ratios = ["9:16"; "16:9"; "1:1"].
Proof. reflexivity. Qed.

(** X17. Which projects are accepted.  Every aspect ratio that
    [get_templates] offers, and the default of the form field, passes
    [Project]'s check, so with the store available the project is
    created; any text outside ["16:9"], ["9:16"], ["1:1"] makes the
    handler fail with nothing stored, as does a missing store. *)
Theorem create_project_ratios title user_id oid d :
  (∀ r, r ∈ template_ratios →
     ∃ d', create_project title (Some r) user_id oid (Some d)
           = (Replied (JObj [("project_id", JStr oid)]), Some d')) ∧
  (∃ d', create_project title None user_id oid (Some d)
         = (Replied (JObj [("project_id", JStr oid)]), Some d')) ∧
  (∀ r db, r ∉ ["16:9"; "9:16"; "1:1"] →
     create_project title (Some r) user_id oid db = (Raised, db)) ∧
  (∀ ar, create_project title ar user_id oid None = (Raised, None)).
Proof.
  split; [|split; [|split]].
  - intros r Hr. rewrite template_ratios_eq in Hr.
    assert (∃ x, parse_aspect_ratio r = Some x) as [x Hx].
    { apply elem_of_cons in Hr as [->|Hr]; [by eexists|].
      apply elem_of_cons in Hr as [->|Hr]; [by eexists|].
      apply list_elem_of_singleton in Hr as ->. by eexists. }
    unfold create_project.
    change (default "16:9" (Some r)) with r. rewrite Hx.
    destruct (create_document_Some "project"
                (dump_Project (mkProject user_id title x)) oid d)
      as (d' & -> & _). by exists d'.
  - unfold create_project.
    change (parse_aspect_ratio (default "16:9" None)) with (Some Wide).
    destruct (create_document_Some "project"
                (dump_Project (mkProject user_id title Wide)) oid d)
      as (d' & -> & _). by exists d'.
  - intros r db Hr. unfold create_project.
    change (default "16:9" (Some r)) with r.
    assert (parse_aspect_ratio r = None) as ->; [|done].
    unfold parse_aspect_ratio.
    repeat case_decide; try done; subst; exfalso; apply Hr;
      repeat first [apply list_elem_of_here | apply list_elem_of_further].
  - intros ar. unfold create_project.
    by destruct (parse_aspect_ratio (default "16:9" ar)).
Qed.

(** X18. A project shows up in its owner's list.  After [create_project]
    the reply of [list_projects] for that user holds the projects listed
    before followed by the new one, under the id just returned, as long
    as the user had fewer than 50; the list of any other user is the
    same as before. *)
Theorem create_then_list title ar user_id oid d r :
  parse_aspect_ratio (default "16:9" ar) = Some r →
  length (filter (λ x, field_is "user_id" user_id x = true)
            (collection "project" d)) < 50 →
  ∃ d',
    create_project title ar user_id oid (Some d)
    = (Replied (JObj [("project_id", JStr oid)]), Some d') ∧
    list_projects user_id (Some d')
    = Replied
        (JObj [("items",
                JArr (listed <$>
                        filter (λ x, field_is "user_id" user_id x = true)
                          (collection "project" d)
                        ++ [mkDocument oid
                              (dump_Project (mkProject user_id title r))]))]) ∧
    ∀ other, other ≠ user_id →
             list_projects other (Some d') = list_projects other (Some d).
Proof.
  intros Hr Hlen. unfold create_project. rewrite Hr.
  set (fields := dump_Project (mkProject user_id title r)).
  destruct (create_document_Some "project" fields oid d)
    as (d' & Hc & Hcoll & _).
  rewrite Hc. exists d'. split; [done|]. split.
  - unfold list_projects.
    destruct (get_documents_after_create "project" "user_id" user_id 50
                fields oid d) as (d'' & Hc' & Hg).
    rewrite Hc in Hc'. injection Hc' as <-. rewrite Hg.
    assert (field_is "user_id" user_id (mkDocument oid fields) = true) as ->.
    { unfold field_is. simpl. by apply bool_decide_eq_true. }
    rewrite take_ge by (rewrite length_app; simpl; lia). done.
  - intros other Hne. unfold list_projects.
    destruct (get_documents_after_create "project" "user_id" other 50
                fields oid d) as (d'' & Hc' & Hg).
    rewrite Hc in Hc'. injection Hc' as <-. rewrite Hg.
    assert (field_is "user_id" other (mkDocument oid fields) = false) as ->.
    { unfold field_is. simpl. by apply bool_decide_eq_false. }
    by rewrite app_nil_r.
Qed.

(** X19. Jobs queued by [ai_generate] belong to the user ["system"].
    With the store available the handler always queues a job; the
    stored job is built from the prompt alone, so two requests with the
    same prompt queue the same job whatever aspect ratio, language,
    voice, style or duration they ask for; and no user other than
    ["system"] sees the job in [list_jobs]. *)
Theorem ai_generate_system_job req oid d :
  ∃ d',
    ai_generate req oid (Some d)
    = (Replied (JObj [("job_id", JStr oid); ("message", JStr "Job queued")]),
       Some d') ∧
    (∀ req', gen_prompt req' = gen_prompt req →
             ai_generate req' oid (Some d) = ai_generate req oid (Some d)) ∧
    (∀ u, u ≠ "system" → list_jobs u (Some d') = list_jobs u (Some d)) ∧
    ∃ docs, get_documents "renderjob" "user_id" "system" 50 (Some d')
            = Some docs ∧
            (length (filter (λ x, field_is "user_id" "system" x = true)
                       (collection "renderjob" d)) < 50 →
             ∃ fields, mkDocument oid fields ∈ docs ∧
                       assoc "aspect_ratio" fields = Some (JStr "16:9")).
Proof.
  pose (fields := dump_RenderJob
                    (mkRenderJob "system" None P1080 Wide
                       [("prompt", JStr (gen_prompt req));
                        ("mode", JStr "text2video")])).
  destruct (create_document_Some "renderjob" fields oid d)
    as (d' & Hc & Hcoll & _).
  assert (ai_generate req oid (Some d)
          = (Replied (JObj [("job_id", JStr oid);
                            ("message", JStr "Job queued")]), Some d'))
    as Hgen by (unfold ai_generate; fold fields; by rewrite Hc).
  exists d'. split; [done|]. split; [|split].
  - intros req' Hp. unfold ai_generate. by rewrite Hp.
  - intros u Hu. unfold list_jobs.
    destruct (get_documents_after_create "renderjob" "user_id" u 50
                fields oid d) as (d'' & Hc' & Hg).
    rewrite Hc in Hc'. injection Hc' as <-. rewrite Hg.
    assert (field_is "user_id" u (mkDocument oid fields) = false) as ->.
    { unfold field_is. simpl. by apply bool_decide_eq_false. }
    by rewrite app_nil_r.
  - destruct (get_documents_after_create "renderjob" "user_id" "system" 50
                fields oid d) as (d'' & Hc' & Hg).
    rewrite Hc in Hc'. injection Hc' as <-.
    assert (field_is "user_id" "system" (mkDocument oid fields) = true)
      as Htrue by done.
    rewrite Htrue in Hg.
    eexists. split; [exact Hg|]. intros Hlen. exists fields. split; [|done].
    rewrite take_ge by (rewrite length_app; simpl; lia).
    apply elem_of_app. right. apply list_elem_of_here.
Qed.

(** X20. A queued render shows up in its owner's list.  [queue_render]
    fails, storing nothing, for a resolution outside ["720p"],
    ["1080p"], ["4K"] or an aspect ratio outside the three allowed;
    otherwise the job is stored with status ["queued"] and
    [list_jobs] for that user ends with it, as long as the user had
    fewer than 50 jobs. *)
Theorem queue_render_listed project_id user_id resolution aspect_ratio oid d :
  match parse_resolution (default "1080p" resolution),
        parse_aspect_ratio (default "16:9" aspect_ratio) with
  | Some rs, Some r =>
      ∃ d',
        queue_render project_id user_id resolution aspect_ratio oid (Some d)
        = (Replied (JObj [("job_id", JStr oid)]), Some d') ∧
        (length (filter (λ x, field_is "user_id" user_id x = true)
                   (collection "renderjob" d)) < 50 →
         ∃ fields,
           list_jobs user_id (Some d')
           = Replied
               (JObj [("items",
                       JArr (listed <$>
                               filter (λ x, field_is "user_id" user_id x = true)
                                 (collection "renderjob" d)
                               ++ [mkDocument oid fields]))]) ∧
           assoc "status" fields = Some (JStr "queued") ∧
           assoc "project_id" fields = Some (JStr project_id))
  | _, _ =>
      ∀ db, queue_render project_id user_id resolution aspect_ratio oid db
            = (Raised, db)
  end.
Proof.
  unfold queue_render.
  destruct (parse_resolution (default "1080p" resolution)) as [rs|];
    [|done].
  destruct (parse_aspect_ratio (default "16:9" aspect_ratio)) as [r|];
    [|done].
  set (fields := dump_RenderJob
                   (mkRenderJob user_id (Some project_id) rs r [])).
  destruct (create_document_Some "renderjob" fields oid d)
    as (d' & Hc & Hcoll & _).
  rewrite Hc. exists d'. split; [done|]. intros Hlen. exists fields.
  split; [|done]. unfold list_jobs.
  destruct (get_documents_after_create "renderjob" "user_id" user_id 50
              fields oid d) as (d'' & Hc' & Hg).
    rewrite Hc in Hc'. injection Hc' as <-. rewrite Hg.
  assert (field_is "user_id" user_id (mkDocument oid fields) = true) as ->.
  { unfold field_is. simpl. by apply bool_decide_eq_true. }
  by rewrite take_ge by (rewrite length_app; simpl; lia).
Qed.

End api_facts.



Section more_runs.
Import Json Datetime Hub Preview Auth Examples HubRuns Api MoreExamples.

Example uuid_str_example :
  uuid_str some_uuid = "3f2b8c1e-9d4a-4f6a-b1c2-0123456789ab".
Proof. by vm_compute. Qed.

Lemma broadcast_reliable_unchanged_witness :
  broadcast "abc" event_x (atomic all_ok) hub_abc
  = (hub_abc,
     [Attempt s1 event_x SendOk; Attempt s2 event_x SendOk;
      Attempt s3 event_x SendOk]).
Proof.
  rewrite (broadcast_reliable_unchanged "abc" event_x (atomic all_ok) hub_abc);
    [by vm_compute|done|done].
Defined.

Lemma broadcast_survivors_witness :
  subscribers (fst (broadcast "abc" event_x (atomic second_fails) hub_abc))
    "abc" = [s1; s3].
Proof.
  rewrite (broadcast_survivors "abc" event_x (atomic second_fails) hub_abc);
    [by vm_compute|done|by_evaluation].
Defined.

Lemma connect_disconnect_roundtrip_witness :
  disconnect "abc" s3
    (foldl run_op init [OpConnect "abc" s1; OpConnect "abc" s2;
                        OpConnect "abc" s3])
  = foldl run_op init [OpConnect "abc" s1; OpConnect "abc" s2].
Proof.
  set (hub2 := foldl run_op init [OpConnect "abc" s1; OpConnect "abc" s2]).
  assert (s3 ∉ subscribers hub2 "abc") as Hnew by by_evaluation.
  assert (connect "abc" s3 true hub2
          = Some (foldl run_op init
                    [OpConnect "abc" s1; OpConnect "abc" s2;
                     OpConnect "abc" s3])) as Hc by done.
  destruct (connect_disconnect_roundtrip "abc" s3 hub2 _ Hnew Hc)
    as (_ & _ & Hsame).
  apply Hsame. vm_compute. by eexists.
Defined.

Lemma broadcast_exception_kind_witness :
  fst (broadcast "abc" event_x (atomic second_fails) hub_abc)
  = fst (broadcast "abc" event_x (atomic second_disconnects) hub_abc).
Proof.
  apply (broadcast_exception_kind "abc" event_x (atomic second_fails)
           (atomic second_disconnects) hub_abc); [|done].
  intros i. simpl. unfold second_fails, second_disconnects.
  by destruct (decide (i = 1)).
Defined.

Lemma preview_ws_cleans_up_witness :
  (5 ∉ subscribers hub_abc "abc") ∧
  (∃ hub' log,
     preview_ws 5 "abc" true [msg_rough; msg_x]
       (ReceiveRaised [OpDisconnect "abc" s1]) hub_abc
     = Some (hub', log) ∧
     5 ∉ subscribers hub' "abc") ∧
  (∃ hub',
     preview_ws 5 "abc" true [] (ReceiveCancelled []) hub_abc
     = Some (hub', []) ∧
     subscribers hub' "abc" = subscribers hub_abc "abc" ++ [5]).
Proof.
  assert (5 ∉ subscribers hub_abc "abc") as Hnew by by_evaluation.
  split; [exact Hnew|].
  apply (preview_ws_cleans_up 5 "abc" [msg_rough; msg_x]
           [OpDisconnect "abc" s1] hub_abc Hnew).
  - repeat constructor.
  - repeat constructor.
Defined.

Lemma preview_ws_calm_witness :
  (∃ hub',
     preview_ws 5 "abc" true [msg_x; msg_y] (ReceiveRaised []) hub_abc
     = Some (hub',
             [Attempt s1 event_x SendOk; Attempt s2 event_x SendOk;
              Attempt s3 event_x SendOk; Attempt 5 event_x SendOk;
              Attempt s1 (envelope (payload msg_y) (clock msg_y)) SendOk;
              Attempt s2 (envelope (payload msg_y) (clock msg_y)) SendOk;
              Attempt s3 (envelope (payload msg_y) (clock msg_y)) SendOk;
              Attempt 5 (envelope (payload msg_y) (clock msg_y)) SendOk]) ∧
     subscribers hub' "abc" = [s1; s2; s3]) ∧
  (∃ hub',
     preview_ws 5 "abc" true [msg_x] (SendCancelled msg_y 2) hub_abc
     = Some (hub',
             [Attempt s1 event_x SendOk; Attempt s2 event_x SendOk;
              Attempt s3 event_x SendOk; Attempt 5 event_x SendOk;
              Attempt s1 (envelope (payload msg_y) (clock msg_y)) SendOk;
              Attempt s2 (envelope (payload msg_y) (clock msg_y)) SendOk]) ∧
     subscribers hub' "abc" = [s1; s2; s3; 5]).
Proof.
  assert (5 ∉ subscribers hub_abc "abc") as Hnew by by_evaluation.
  assert (Forall calm [msg_x; msg_y]) as Hcalm by (repeat constructor).
  assert (Forall calm [msg_x]) as Hcalm1 by (repeat constructor).
  assert (calm msg_y) as Hy by (repeat constructor).
  destruct (preview_ws_calm 5 "abc" [msg_x; msg_y] hub_abc Hnew Hcalm)
    as ((hub' & Hrun & Hsame) & _).
  destruct (preview_ws_calm 5 "abc" [msg_x] hub_abc Hnew Hcalm1)
    as (_ & _ & Hcut).
  destruct (Hcut msg_y 2 Hy) as (hub'' & Hrun' & Hlist & _).
  split.
  - exists hub'. split; [rewrite Hrun; by vm_compute|].
    rewrite Hsame. by vm_compute.
  - exists hub''. split; [rewrite Hrun'; by vm_compute|].
    rewrite Hlist. by vm_compute.
Defined.

Lemma preview_ws_sends_envelopes_witness :
  ∃ m, m ∈ [msg_x; msg_y] ∧
       sent (Attempt s2 (envelope (payload msg_y) (clock msg_y)) SendOk)
       = envelope (payload m) (clock m).
Proof.
  assert (preview_ws 5 "abc" true [msg_x] (SendCancelled msg_y 2) hub_abc
          = Some (foldl run_op hub_abc [OpConnect "abc" 5],
                  [Attempt s1 event_x SendOk; Attempt s2 event_x SendOk;
                   Attempt s3 event_x SendOk; Attempt 5 event_x SendOk;
                   Attempt s1 (envelope (payload msg_y) (clock msg_y)) SendOk;
                   Attempt s2 (envelope (payload msg_y) (clock msg_y)) SendOk]))
    as Hrun by by vm_compute.
  apply (preview_ws_sends_envelopes 5 "abc" true [msg_x]
           (SendCancelled msg_y 2) hub_abc _ _ _ Hrun).
  do 5 apply list_elem_of_further. apply list_elem_of_here.
Defined.

Lemma on_message_after_failure_witness :
  ∃ log2,
    snd (receive_loop "abc"
           [mkInbound [] payload_x may17 (atomic second_fails); msg_y] hub_abc)
    = snd (on_message "abc"
             (mkInbound [] payload_x may17 (atomic second_fails)) hub_abc)
      ++ log2 ∧
    target <$> log2 = [s1; s3] ∧
    ¬ attempted s2 log2.
Proof.
  assert (NoDup (subscribers hub_abc "abc")) as Hnd by by_evaluation.
  destruct (on_message_after_failure "abc"
              (mkInbound [] payload_x may17 (atomic second_fails)) msg_y
              hub_abc Hnd eq_refl (λ _, eq_refl))
    as (log2 & Hlog & _ & Htargets & Hnot).
  exists log2. split; [exact Hlog|]. split.
  - rewrite (Htargets eq_refl). by vm_compute.
  - apply (Hnot 1 s2); [reflexivity|reflexivity|constructor].
Defined.

Lemma envelope_inj_witness :
  valid may17 = true ∧
  envelope payload_x may17 = event_x ∧
  (payload_x = payload_x ∧ may17 = may17).
Proof.
  split; [reflexivity|]. split; [reflexivity|].
  exact (envelope_inj payload_x payload_x may17 may17 eq_refl eq_refl eq_refl).
Defined.

Lemma upload_then_download_witness :
  get_upload "/srv/app"
    "3f2b8c1e-9d4a-4f6a-b1c2-0123456789ab_cat.png"
    (snd (fst (upload_file "/srv/app" "u1" "image" cat some_uuid true
                 "65f0b1" empty_disk (Some empty_db))))
  = Stream "89PNG".
Proof.
  exact (proj1 (upload_then_download "/srv/app" "u1" "image" cat "cat.png"
                  some_uuid "65f0b1" empty_disk (Some empty_db)
                  eq_refl eq_refl)).
Defined.

Lemma upload_rejected_keeps_file_witness :
  upload_file "/srv/app" "u1" "pdf" cat some_uuid true "65f0b1" empty_disk
    (Some empty_db)
  = (Raised,
     mkDisk {[ "/srv/app/uploads/3f2b8c1e-9d4a-4f6a-b1c2-0123456789ab_cat.png"
               := File "89PNG" ]},
     Some empty_db) ∧
  upload_file "/srv/app" "u1" "image" nameless some_uuid true "65f0b1"
    empty_disk (Some empty_db)
  = (Raised,
     mkDisk {[ "/srv/app/uploads/3f2b8c1e-9d4a-4f6a-b1c2-0123456789ab_None"
               := File "89PNG" ]},
     Some empty_db).
Proof.
  split.
  - rewrite (proj1 (upload_rejected_keeps_file "/srv/app" "u1" "pdf" cat
                      some_uuid "65f0b1" empty_disk (Some empty_db)
                      (or_introl eq_refl))).
    by vm_compute.
  - rewrite (proj1 (upload_rejected_keeps_file "/srv/app" "u1" "image" nameless
                      some_uuid "65f0b1" empty_disk (Some empty_db)
                      (or_intror (or_introl eq_refl)))).
    by vm_compute.
Defined.

Lemma create_then_list_witness :
  ∃ d',
    create_project "Holiday" (Some "9:16") "u1" "65f0c1" (Some empty_db)
    = (Replied (JObj [("project_id", JStr "65f0c1")]), Some d') ∧
    list_projects "u1" (Some d')
    = Replied
        (JObj [("items",
                JArr [listed (mkDocument "65f0c1"
                                (dump_Project (mkProject "u1" "Holiday" Tall)))])]).
Proof.
  assert (length (filter (λ x, field_is "user_id" "u1" x = true)
                    (collection "project" empty_db)) < 50) as Hlen
    by (vm_compute; lia).
  destruct (create_then_list "Holiday" (Some "9:16") "u1" "65f0c1" empty_db
              Tall eq_refl Hlen) as (d' & Hc & Hl & _).
  exists d'. split; [exact Hc|]. rewrite Hl. by vm_compute.
Defined.

End more_runs.
